(** * html-minimizer-webpack-plugin: the optimize pass of [src/index.js]

    A shallow embedding of [HtmlMinimizerPlugin]: its constructor, the
    diagnostics builders [buildWarning] and [buildError], the worker sizing
    of [getAvailableNumberOfCores], and the [optimize] routine with its
    cache lookups, lazily created worker pool and throttled task list.

    Asynchronous tasks are modelled as resumable bodies: a task runs
    atomically from one [await] to the next, and a schedule decides which
    suspended task is resumed next.  Everything proved about a pass is
    proved for every schedule. *)

From stdpp Require Import gmap strings list fin_maps.
From Stdlib Require Import ZArith Lia.

Open Scope Z_scope.

(** ** JavaScript values that reach the diagnostics builders *)

(** A warning or error handed to [buildWarning] / [buildError]: a string,
    or an object with optional [message] and [stack] properties, which may
    be an instance of [Error]; [toString] is what its [toString()] method
    returns.  These are the values the two builders tell apart
    ([typeof error === "string"], [instanceof Error], [error.stack],
    [error.message]); [null] and [undefined] are not among them. *)
Inductive JsValue :=
| JString (s : string)
| JObject (isError : bool) (message : option string) (stack : option string)
          (toString : string).

(** The line feed of the template literals. *)
Definition nl : string := String (Ascii.ascii_of_nat 10) EmptyString.

(** [`${v}`] for a property that is a string or [undefined]. *)
Definition template (v : option string) : string :=
  match v with Some s => s | None => "undefined" end.

(** Truthiness of a property that is a string or [undefined]. *)
Definition truthy (v : option string) : bool :=
  match v with
  | Some s => negb (bool_decide (s = ""))
  | None => false
  end.

(** What the build's sinks hold: the object made by [new Error(message)]
    with the properties the builders set on it. *)
Record BuiltError := mkBuiltError {
  be_name : string;
  be_message : string;
  be_hideStack : bool;
  be_file : string
}.

(** [new Error(message)]: an [undefined] argument gives the empty message. *)
Definition newError (message : option string) : BuiltError :=
  {| be_name := "Error";
     be_message := match message with Some m => m | None => "" end;
     be_hideStack := false;
     be_file := "" |}.

Definition buildWarning (warning : JsValue) (file : string) : BuiltError :=
  let builtWarning :=
    newError
      match warning with
      | JObject true message _ _ => message
      | JObject false (Some message) _ _ => Some message
      | JObject false None _ toString => Some toString
      | JString s => Some s
      end in
  {| be_name := "Warning";
     be_message := be_message builtWarning;
     be_hideStack := true;
     be_file := file |}.

Definition withFile (e : BuiltError) (file : string) : BuiltError :=
  {| be_name := be_name e;
     be_message := be_message e;
     be_hideStack := be_hideStack e;
     be_file := file |}.

Definition buildError (error : JsValue) (file : string) : BuiltError :=
  match error with
  | JString s =>
      withFile (newError (Some (file +:+ " from Html Minimizer plugin" +:+ nl +:+ s)))
               file
  | JObject _ message stack _ =>
      if truthy stack then
        withFile
          (newError
             (Some (file +:+ " from Html Minimizer plugin" +:+ nl +:+
                    match message with Some m => m | None => "" end
                    +:+ nl +:+ template stack)))
          file
      else
        withFile
          (newError
             (Some (file +:+ " from Html Minimizer plugin" +:+ nl +:+
                    template message)))
          file
  end.

(** The message of a thrown value: the string itself, or the [message]
    property of an object that has one. *)
Definition thrownMessage (error : JsValue) : option string :=
  match error with
  | JString s => Some s
  | JObject _ message _ _ => message
  end.

(** The [stack] property of a thrown value; a string has none. *)
Definition stackOf (error : JsValue) : option string :=
  match error with
  | JString _ => None
  | JObject _ _ stack _ => stack
  end.


(** ** Worker sizing *)

(** The [parallel] option: [undefined | boolean | number]. *)
Inductive Parallel :=
| PUndefined
| PBool (b : bool)
| PNum (n : Z).

(** [Number(parallel) || 0]: [NaN] (from [undefined]) and [0] give [0]. *)
Definition numberOr0 (parallel : Parallel) : Z :=
  match parallel with
  | PUndefined => 0
  | PBool true => 1
  | PBool false => 0
  | PNum n => n
  end.

(** [os.cpus() || { length: 1 }]; [os_cpus] is the length of the array
    [os.cpus()] returns, [None] when it returns [undefined]. *)
Definition cpusLength (os_cpus : option nat) : Z :=
  match os_cpus with
  | Some n => Z.of_nat n
  | None => 1
  end.

Definition getAvailableNumberOfCores (os_cpus : option nat) (parallel : Parallel) : Z :=
  match parallel with
  | PBool true => cpusLength os_cpus - 1
  | _ => Z.min (numberOr0 parallel) (cpusLength os_cpus - 1)
  end.

(** ** The constructor *)

(** A rule of [test], [include] or [exclude]. *)
Inductive Rule :=
| RuleString (s : string)
| RuleRegExp (pattern flags : string).

(** [Rules]: one rule or an array of rules. *)
Inductive Rules :=
| OneRule (r : Rule)
| ManyRules (rs : list Rule).

(** A minimizer implementation is referred to by name. *)
Definition Implementation := string.

(** [minimizerOptions]: absent, one options object, or an array. *)
Inductive OptionsValue :=
| OUndefined
| OObject (o : string)
| OArray (items : list (option string)).

Record Minimizer := mkMinimizer {
  implementation : Implementation;
  options : OptionsValue
}.

(** The [minimizer] of the plugin: one [Minimizer] or an array of them. *)
Inductive MinimizerSpec :=
| Single (m : Minimizer)
| Chain (ms : list Minimizer).

(** The [minify] option: one implementation or an array. *)
Inductive MinifyOption :=
| MinifyOne (f : Implementation)
| MinifyMany (fs : list Implementation).

(** The options object passed to [new HtmlMinimizerPlugin(options)];
    [None] and [PUndefined] / [OUndefined] are absent properties. *)
Record PluginOptions := mkPluginOptions {
  po_minify : option MinifyOption;
  po_minimizerOptions : OptionsValue;
  po_parallel : Parallel;
  po_test : option Rules;
  po_include : option Rules;
  po_exclude : option Rules
}.

(** [this.options]. *)
Record InternalPluginOptions := mkInternalPluginOptions {
  test : Rules;
  parallel : Parallel;
  include : option Rules;
  exclude : option Rules;
  minimizer : MinimizerSpec
}.

Definition htmlMinifierTerser : Implementation := "htmlMinifierTerser".

(** [minimizerOptions[i]] *)
Definition optionsAt (items : list (option string)) (i : nat) : OptionsValue :=
  match items !! i with
  | Some (Some o) => OObject o
  | _ => OUndefined
  end.

Definition zipMinimizers (minimizerOptions : OptionsValue) (fs : list Implementation)
  : list Minimizer :=
  imap (fun i item =>
          {| implementation := item;
             options := match minimizerOptions with
                        | OArray items => optionsAt items i
                        | _ => minimizerOptions
                        end |}) fs.

(** The constructor (lines 117-171), after [validate] has accepted the
    options. *)
Definition constructor (options : PluginOptions) : InternalPluginOptions :=
  let minify :=
    match po_minify options with
    | Some f => f
    | None => MinifyOne htmlMinifierTerser
    end in
  let minimizerOptions := po_minimizerOptions options in
  let parallel :=
    match po_parallel options with
    | PUndefined => PBool true
    | p => p
    end in
  let test :=
    match po_test options with
    | Some t => t
    | None => OneRule (RuleRegExp "\.html(\?.*)?$" "i")
    end in
  let minimizer :=
    match minify with
    | MinifyMany fs => Chain (zipMinimizers minimizerOptions fs)
    | MinifyOne f => Single {| implementation := f; options := minimizerOptions |}
    end in
  {| test := test;
     parallel := parallel;
     include := po_include options;
     exclude := po_exclude options;
     minimizer := minimizer |}.

(** [apply] computes the number of cores once, from [this.options]. *)
Definition apply_availableNumberOfCores (os_cpus : option nat) (this : InternalPluginOptions) : Z :=
  getAvailableNumberOfCores os_cpus (parallel this).

(** ** The build: assets, sinks and cache *)

(** What [source.source()] returns: a string or a [Buffer]. *)
Inductive SourceValue :=
| SVString (s : string)
| SVBuffer (bytes : list Byte.byte).

(** A webpack [Source], represented by the value of its [source()] method;
    [new RawSource(code)] is [RawSource (SVString code)]. *)
Record Source := RawSource { source : SourceValue }.

(** The asset info: the [minimized] flag and the other properties. *)
Record AssetInfo := mkAssetInfo {
  minimized : bool;
  otherInfo : list (string * string)
}.

Record Asset := mkAsset {
  asset_source : Source;
  asset_info : AssetInfo
}.

(** [InternalResult], what a minimization call resolves with. *)
Record InternalResult := mkInternalResult {
  code : string;
  r_warnings : list JsValue;
  r_errors : list JsValue
}.

(** What [cacheItem.storePromise] is given and [cacheItem.getPromise]
    gives back: [{ source, errors, warnings }]. *)
Record CacheEntry := mkCacheEntry {
  c_source : Source;
  c_errors : list JsValue;
  c_warnings : list JsValue
}.

(** The compilation: the asset graph, the two sinks, and the cache
    [compilation.getCache("HtmlMinimizerWebpackPlugin")], whose items are
    identified by a name and an etag. *)
Record Compilation := mkCompilation {
  assets : gmap string Asset;
  errors : list BuiltError;
  warnings : list BuiltError;
  cache : gmap (string * string) CacheEntry
}.

Definition getAsset (compilation : Compilation) (name : string) : option Asset :=
  assets compilation !! name.

(** [{ ...oldInfo, minimized: true }] *)
Definition newInfo (old : AssetInfo) : AssetInfo :=
  {| minimized := true; otherInfo := otherInfo old |}.

(** [compilation.updateAsset(name, source, { minimized: true })]: throws
    ([None]) when the asset does not exist. *)
Definition updateAsset (compilation : Compilation) (name : string) (src : Source)
  : option Compilation :=
  match assets compilation !! name with
  | None => None
  | Some old =>
      Some {| assets := <[name := {| asset_source := src;
                                     asset_info := newInfo (asset_info old) |}]>
                          (assets compilation);
              errors := errors compilation;
              warnings := warnings compilation;
              cache := cache compilation |}
  end.

Definition pushErrors (compilation : Compilation) (es : list BuiltError) : Compilation :=
  {| assets := assets compilation;
     errors := errors compilation ++ es;
     warnings := warnings compilation;
     cache := cache compilation |}.

Definition pushWarnings (compilation : Compilation) (ws : list BuiltError) : Compilation :=
  {| assets := assets compilation;
     errors := errors compilation;
     warnings := warnings compilation ++ ws;
     cache := cache compilation |}.

(** [cacheItem.storePromise(entry)] for the item [(name, eTag)]. *)
Definition storePromise (compilation : Compilation) (cacheItem : string * string)
    (entry : CacheEntry) : Compilation :=
  {| assets := assets compilation;
     errors := errors compilation;
     warnings := warnings compilation;
     cache := <[cacheItem := entry]> (cache compilation) |}.

(** ** Minimization calls *)

(** [InternalOptions]. *)
Record InternalOptions := mkInternalOptions {
  o_name : string;
  o_input : string;
  o_minimizer : MinimizerSpec
}.

(** How the promise of a minimization call settles. *)
Inductive Settled :=
| Fulfilled (result : InternalResult)
| RejectedWith (error : JsValue).

(** The worker created by [new Worker(require.resolve("./minify"), ...)]. *)
Record Worker := mkWorker {
  numWorkers : Z;
  enableWorkerThreads : bool
}.

(** What a pass does, in the order it does it. *)
Inductive Event :=
| EvThrottle (limit : Z) (tasks : nat)
| EvNewWorker (w : Worker)
| EvMinify (viaWorker : bool) (options : InternalOptions)
| EvStore (cacheItem : string * string) (entry : CacheEntry)
| EvUpdateAsset (name : string)
| EvWorkerEnd.

(** The state of one pass: the compilation, the [initializedWorker]
    variable of [optimize], and the events so far. *)
Record Pass := mkPass {
  compilation : Compilation;
  initializedWorker : option Worker;
  trace : list Event
}.

(** The entries of [assetsForMinify]. *)
Record AssetForMinify := mkAssetForMinify {
  name : string;
  info : AssetInfo;
  inputSource : Source;
  output : option CacheEntry;
  cacheItem : string * string
}.

(** Where a task body is suspended: at the [await] of the minimization
    call, whose promise settles as [promise], or at the [await] of
    [cacheItem.storePromise] with the [output] in hand. *)
Inductive Await :=
| AwaitMinify (promise : Settled)
| AwaitStore (result : InternalResult).

(** A task is not started yet, suspended at an [await], or settled
    (fulfilled or rejected). *)
Inductive Phase :=
| Pending
| Suspended (k : Await)
| Done (fulfilled : bool).

Definition isSuspended (ph : Phase) : bool :=
  match ph with Suspended _ => true | _ => false end.

Definition isPending (ph : Phase) : bool :=
  match ph with Pending => true | _ => false end.

Definition isDone (ph : Phase) : bool :=
  match ph with Done _ => true | _ => false end.

(** A task body: from a phase and a state to the next phase and state. *)
Abbreviation Task := (Phase -> Pass -> Phase * Pass) (only parsing).

(** ** Throttle *)

Section Throttle.

(** [throttleAll(limit, tasks)] belongs to [src/utils.js], which is not
    among the sources; it is modelled from what the spec says of the
    Throttle: an ordered list of asynchronous tasks is run with at most
    [limit] of them in flight, started in list order, and the whole
    resolves when all of them have settled; it never rejects as a whole. *)

Variable limit : Z.
Variable tasks : list Task.

Definition inFlight (phases : list Phase) : Z :=
  Z.of_nat (length (filter isSuspended phases)).

Definition mayStart (phases : list Phase) (i : nat) : bool :=
  bool_decide (fst <$> list_find isPending phases = Some i)
  && bool_decide (inFlight phases < limit).

Definition resume (i : nat) (st : list Phase * Pass) : list Phase * Pass :=
  match tasks !! i, st.1 !! i with
  | Some body, Some ph =>
      let r := body ph st.2 in (<[i := r.1]> st.1, r.2)
  | _, _ => st
  end.

(** Modelled from the spec: one turn of the event loop inside
    [throttleAll] (of the absent [src/utils.js]).  The turn [i] starts
    task [i] when it is the next pending one and fewer than [limit] tasks
    are in flight, resumes it when it is suspended, and does nothing
    otherwise. *)
Definition throttleStep (st : list Phase * Pass) (i : nat) : list Phase * Pass :=
  match st.1 !! i with
  | Some Pending => if mayStart st.1 i then resume i st else st
  | Some (Suspended _) => resume i st
  | _ => st
  end.

Definition nextRunnable (phases : list Phase) : option nat :=
  match list_find isSuspended phases with
  | Some (i, _) => Some i
  | None =>
      match list_find isPending phases with
      | Some (i, _) => if bool_decide (inFlight phases < limit) then Some i else None
      | None => None
      end
  end.

Fixpoint drain (fuel : nat) (st : list Phase * Pass) : list Phase * Pass :=
  match fuel with
  | O => st
  | S fuel' =>
      match nextRunnable st.1 with
      | Some i => drain fuel' (throttleStep st i)
      | None => st
      end
  end.

Definition throttleRun (fuel : nat) (schedule : list nat) (p : Pass) : list Phase * Pass :=
  drain fuel (fold_left throttleStep schedule (replicate (length tasks) Pending, p)).

(** Modelled from the spec: [throttleAll(limit, tasks)] of the absent
    [src/utils.js].  The [schedule] is the order in which the event loop
    happens to take its turns; what it leaves unfinished is then run to
    completion ([drain], in at most [fuel] steps).  The result is the
    state in which the promise resolves, and [None] when tasks remain
    unsettled, so that it never resolves. *)
Definition throttleAll (fuel : nat) (schedule : list nat) (p : Pass) : option Pass :=
  let st := throttleRun fuel schedule p in
  if forallb isDone st.1 then Some st.2 else None.

End Throttle.

(** The number of steps a task in a given phase still takes, at most. *)
Definition weight (ph : Phase) : nat :=
  match ph with
  | Pending => 3
  | Suspended (AwaitMinify _) => 2
  | Suspended (AwaitStore _) => 1
  | Done _ => 0
  end.

Definition totalWeight (phases : list Phase) : nat :=
  sum_list (weight <$> phases).

(** ** Observing a pass, asset by asset *)

(** The asset an event is about. *)
Definition eventName (e : Event) : option string :=
  match e with
  | EvMinify _ options => Some (o_name options)
  | EvStore cacheItem _ => Some cacheItem.1
  | EvUpdateAsset name => Some name
  | _ => None
  end.

Definition isNewWorker (e : Event) : bool :=
  match e with EvNewWorker _ => true | _ => false end.

Definition isWorkerCall (e : Event) : bool :=
  match e with EvMinify true _ => true | _ => false end.

Definition isMinify (e : Event) : bool :=
  match e with EvMinify _ _ => true | _ => false end.

Definition isWorkerEnd (e : Event) : bool :=
  match e with EvWorkerEnd => true | _ => false end.

Definition isStore (e : Event) : bool :=
  match e with EvStore _ _ => true | _ => false end.

(** The entries of a sink that are tagged with [name]. *)
Definition taggedWith (name : string) (sink : list BuiltError) : list BuiltError :=
  filter (fun e => be_file e = name) sink.

(** The events of a trace that are about [name]. *)
Definition eventsOf (name : string) (t : list Event) : list Event :=
  filter (fun e => eventName e = Some name) t.

(** The cache items of [name]. *)
Definition itemsOf (name : string) (m : gmap (string * string) CacheEntry)
  : gmap (string * string) CacheEntry :=
  filter (fun kv => kv.1.1 = name) m.

(** All that a pass state holds about the asset [name]. *)
Record View := mkView {
  v_asset : option Asset;
  v_errors : list BuiltError;
  v_warnings : list BuiltError;
  v_cache : gmap (string * string) CacheEntry;
  v_events : list Event
}.

Definition view (name : string) (p : Pass) : View :=
  {| v_asset := assets (compilation p) !! name;
     v_errors := taggedWith name (errors (compilation p));
     v_warnings := taggedWith name (warnings (compilation p));
     v_cache := itemsOf name (cache (compilation p));
     v_events := eventsOf name (trace p) |}.

(** ** The optimize routine *)

(** How the promise returned by [optimize] ends: resolved with the state
    the pass leaves, rejected (the [TypeError] of destructuring an asset
    that [compilation.getAsset] does not know), or never settled. *)
Inductive Outcome :=
| Resolved (p : Pass)
| Rejected
| Unsettled.

Definition addEvent (p : Pass) (e : Event) : Pass :=
  {| compilation := compilation p;
     initializedWorker := initializedWorker p;
     trace := trace p ++ [e] |}.

Definition setCompilation (p : Pass) (c : Compilation) : Pass :=
  {| compilation := c;
     initializedWorker := initializedWorker p;
     trace := trace p |}.

Section Optimize.

(** [compiler.webpack.ModuleFilenameHelpers.matchObject]. *)
Variable matchObject : InternalPluginOptions -> string -> bool.
(** [cache.getLazyHashedEtag]. *)
Variable getLazyHashedEtag : Source -> string.
(** [Buffer.prototype.toString]. *)
Variable Buffer_toString : list Byte.byte -> string.
(** [minify(options)] of [./minify], run in process. *)
Variable minify : InternalOptions -> Settled.
(** [worker.transform(serialize(options))]. *)
Variable transform : Worker -> InternalOptions -> Settled.

(** [this.options]. *)
Variable this : InternalPluginOptions.

(** The callback of [filter] (lines 265-284); [None] when [getAsset] gives
    [undefined] and the destructuring throws. *)
Definition keepAsset (c : Compilation) (name : string) : option bool :=
  match getAsset c name with
  | None => None
  | Some a =>
      Some (if minimized (asset_info a) then false
            else if negb (matchObject this name) then false
            else true)
  end.

Fixpoint filterAssets (c : Compilation) (names : list string) : option (list string) :=
  match names with
  | [] => Some []
  | name :: rest =>
      match keepAsset c name with
      | None => None
      | Some keep =>
          match filterAssets c rest with
          | None => None
          | Some rest' => Some (if keep then name :: rest' else rest')
          end
      end
  end.

(** The names that [filter] keeps. *)
Definition kept (c : Compilation) (names : list string) : list string :=
  filter (fun n => keepAsset c n = Some true) names.

(** The callback of [map] (lines 285-299): the asset is read again, its
    etag computed, and the cache item of its name and etag looked up. *)
Definition lookupCache (c : Compilation) (name : string) : option AssetForMinify :=
  match getAsset c name with
  | None => None
  | Some a =>
      let eTag := getLazyHashedEtag (asset_source a) in
      let cacheItem := (name, eTag) in
      Some {| name := name;
              info := asset_info a;
              inputSource := asset_source a;
              output := cache c !! cacheItem;
              cacheItem := cacheItem |}
  end.

Definition assetsForMinify (c : Compilation) (names : list string)
  : option (list AssetForMinify) :=
  match filterAssets c names with
  | None => None
  | Some kept => mapM (lookupCache c) kept
  end.

Definition isMiss (asset : AssetForMinify) : bool :=
  match output asset with None => true | Some _ => false end.

(** The counter incremented by [if (!output) numberOfAssets += 1]. *)
Definition numberOfAssets (l : list AssetForMinify) : Z :=
  Z.of_nat (length (filter isMiss l)).

(** [numberOfWorkers] (lines 313-318); [getWorker] is defined exactly when
    it is. *)
Definition numberOfWorkers (l : list AssetForMinify) (availableNumberOfCores : Z)
  : option Z :=
  if bool_decide (availableNumberOfCores > 0)
  then Some (Z.min (numberOfAssets l) availableNumberOfCores)
  else None.

(** [getWorker] (lines 320-348): the pool is created on the first call. *)
Definition getWorker (numberOfWorkers : Z) (p : Pass) : Worker * Pass :=
  match initializedWorker p with
  | Some w => (w, p)
  | None =>
      let w := {| numWorkers := numberOfWorkers; enableWorkerThreads := true |} in
      (w, {| compilation := compilation p;
             initializedWorker := Some w;
             trace := trace p ++ [EvNewWorker w] |})
  end.

Definition entryOf (r : InternalResult) : CacheEntry :=
  {| c_source := RawSource (SVString (code r));
     c_errors := r_errors r;
     c_warnings := r_warnings r |}.

(** The end of a task body, from [const newInfo] on (lines 400-420): the
    warnings are pushed, then the errors, then the asset is updated; when
    [updateAsset] throws the task rejects ([Done false]). *)
Definition replay (asset : AssetForMinify) (out : CacheEntry) (p : Pass) : Phase * Pass :=
  let c1 := pushWarnings (compilation p)
              (map (fun w => buildWarning w (name asset)) (c_warnings out)) in
  let c2 := pushErrors c1
              (map (fun e => buildError e (name asset)) (c_errors out)) in
  match updateAsset c2 (name asset) (c_source out) with
  | Some c3 => (Done true, addEvent (setCompilation p c3) (EvUpdateAsset (name asset)))
  | None => (Done false, setCompilation p c2)
  end.

Definition toInput (v : SourceValue) : string :=
  match v with
  | SVString s => s
  | SVBuffer bytes => Buffer_toString bytes
  end.

Definition optionsOf (asset : AssetForMinify) : InternalOptions :=
  {| o_name := name asset;
     o_input := toInput (source (inputSource asset));
     o_minimizer := minimizer this |}.

(** The body pushed on [scheduledTasks] for [asset] (lines 355-421), cut
    at its two [await]s: from the start to the minimization call (or to
    the end, for a cache hit); from the settled call to
    [cacheItem.storePromise] (or to the end, in the [catch]); from there
    to the end. *)
Definition task (workers : option Z) (asset : AssetForMinify) : Task :=
  fun ph p =>
    match ph with
    | Pending =>
        match output asset with
        | Some out => replay asset out p
        | None =>
            let options := optionsOf asset in
            match workers with
            | Some n =>
                let wp := getWorker n p in
                (Suspended (AwaitMinify (transform wp.1 options)),
                 addEvent wp.2 (EvMinify true options))
            | None =>
                (Suspended (AwaitMinify (minify options)),
                 addEvent p (EvMinify false options))
            end
        end
    | Suspended (AwaitMinify (RejectedWith error)) =>
        (Done true,
         setCompilation p
           (pushErrors (compilation p) [buildError error (name asset)]))
    | Suspended (AwaitMinify (Fulfilled result)) =>
        (Suspended (AwaitStore result),
         addEvent
           (setCompilation p
              (storePromise (compilation p) (cacheItem asset) (entryOf result)))
           (EvStore (cacheItem asset) (entryOf result)))
    | Suspended (AwaitStore result) => replay asset (entryOf result) p
    | Done b => (Done b, p)
    end.

Definition scheduledTasks (workers : option Z) (l : list AssetForMinify) : list Task :=
  map (task workers) l.

(** [limit] (lines 424-427). *)
Definition throttleLimit (workers : option Z) (l : list AssetForMinify) : Z :=
  match workers with
  | Some n =>
      if bool_decide (numberOfAssets l > 0) then n
      else Z.of_nat (length (scheduledTasks workers l))
  | None => Z.of_nat (length (scheduledTasks workers l))
  end.

(** [if (initializedWorker) await initializedWorker.end()] *)
Definition teardown (p : Pass) : Pass :=
  match initializedWorker p with
  | Some _ => addEvent p EvWorkerEnd
  | None => p
  end.

(** [optimize] (lines 260-434); [assetNames] is [Object.keys(assets)]. *)
Definition optimize (c : Compilation) (assetNames : list string)
    (availableNumberOfCores : Z) (schedule : list nat) : Outcome :=
  match assetsForMinify c assetNames with
  | None => Rejected
  | Some [] => Resolved {| compilation := c; initializedWorker := None; trace := [] |}
  | Some l =>
      let workers := numberOfWorkers l availableNumberOfCores in
      let tasks := scheduledTasks workers l in
      let limit := throttleLimit workers l in
      let p0 := {| compilation := c; initializedWorker := None;
                   trace := [EvThrottle limit (length tasks)] |} in
      match throttleAll limit tasks (3 * length tasks) schedule p0 with
      | Some p => Resolved (teardown p)
      | None => Unsettled
      end
  end.

(** ** What the task of an asset leaves behind, phase by phase *)

(** The promise of the minimization call of [asset]. *)
Definition call (workers : option Z) (asset : AssetForMinify) : Settled :=
  match workers with
  | Some n =>
      transform {| numWorkers := n; enableWorkerThreads := true |} (optionsOf asset)
  | None => minify (optionsOf asset)
  end.

Definition viewInvoke (workers : option Z) (asset : AssetForMinify) (v : View) : View :=
  {| v_asset := v_asset v; v_errors := v_errors v; v_warnings := v_warnings v;
     v_cache := v_cache v;
     v_events := v_events v ++
       [EvMinify (match workers with Some _ => true | None => false end)
                 (optionsOf asset)] |}.

Definition viewStore (asset : AssetForMinify) (r : InternalResult) (v : View) : View :=
  {| v_asset := v_asset v; v_errors := v_errors v; v_warnings := v_warnings v;
     v_cache := <[cacheItem asset := entryOf r]> (v_cache v);
     v_events := v_events v ++ [EvStore (cacheItem asset) (entryOf r)] |}.

Definition viewFail (asset : AssetForMinify) (error : JsValue) (v : View) : View :=
  {| v_asset := v_asset v;
     v_errors := v_errors v ++ [buildError error (name asset)];
     v_warnings := v_warnings v;
     v_cache := v_cache v;
     v_events := v_events v |}.

Definition viewReplay (asset : AssetForMinify) (out : CacheEntry) (v : View) : View :=
  {| v_asset :=
       match v_asset v with
       | Some old => Some {| asset_source := c_source out;
                             asset_info := newInfo (asset_info old) |}
       | None => None
       end;
     v_errors := v_errors v ++ map (fun e => buildError e (name asset)) (c_errors out);
     v_warnings := v_warnings v ++
                   map (fun w => buildWarning w (name asset)) (c_warnings out);
     v_cache := v_cache v;
     v_events := v_events v ++
                 match v_asset v with
                 | Some _ => [EvUpdateAsset (name asset)]
                 | None => []
                 end |}.

(** The view of [asset] when its task is in phase [ph], from the view
    [v0] at the start of the throttle. *)
Definition expected (workers : option Z) (asset : AssetForMinify) (ph : Phase)
    (v0 : View) : View :=
  match ph with
  | Pending => v0
  | Suspended (AwaitMinify _) => viewInvoke workers asset v0
  | Suspended (AwaitStore r) => viewStore asset r (viewInvoke workers asset v0)
  | Done _ =>
      match output asset with
      | Some out => viewReplay asset out v0
      | None =>
          match call workers asset with
          | Fulfilled r =>
              viewReplay asset (entryOf r)
                (viewStore asset r (viewInvoke workers asset v0))
          | RejectedWith error => viewFail asset error (viewInvoke workers asset v0)
          end
      end
  end.

(** The phases the task of [asset] can be in. *)
Definition phaseOK (workers : option Z) (asset : AssetForMinify) (ph : Phase) : Prop :=
  match ph with
  | Pending => True
  | Suspended (AwaitMinify s) => output asset = None ∧ s = call workers asset
  | Suspended (AwaitStore r) => output asset = None ∧ call workers asset = Fulfilled r
  | Done b => b = true
  end.

Definition quiet (e : Event) : Prop :=
  isNewWorker e = false ∧ isWorkerCall e = false.

(** The worker pool and the trace: no pool and no trace of one, or one
    pool, created for the call of a cache miss that follows at once. *)
Definition poolOK (workers : option Z) (l : list AssetForMinify) (p : Pass) : Prop :=
  match initializedWorker p with
  | None => Forall quiet (trace p)
  | Some w =>
      ∃ n asset pre post,
        workers = Some n ∧
        w = {| numWorkers := n; enableWorkerThreads := true |} ∧
        asset ∈ l ∧ output asset = None ∧
        trace p = pre ++ EvNewWorker w :: EvMinify true (optionsOf asset) :: post ∧
        Forall quiet pre ∧
        Forall (fun e => isNewWorker e = false) post
  end.

(** The diagnostics the task of [asset] has to surface: those of the
    cached output, those of the result of the call, or what the call
    rejected with. *)
Definition ownErrors (workers : option Z) (asset : AssetForMinify) : list JsValue :=
  match output asset with
  | Some out => c_errors out
  | None =>
      match call workers asset with
      | Fulfilled r => r_errors r
      | RejectedWith error => [error]
      end
  end.

Definition ownWarnings (workers : option Z) (asset : AssetForMinify) : list JsValue :=
  match output asset with
  | Some out => c_warnings out
  | None =>
      match call workers asset with
      | Fulfilled r => r_warnings r
      | RejectedWith _ => []
      end
  end.

(** The output the task of [asset] ends up with: the cached one, or the
    one made of the result of the call; none when the call rejects. *)
Definition finalOutput (workers : option Z) (asset : AssetForMinify)
  : option CacheEntry :=
match output asset with
| Some out => Some out
| None =>
    match call workers asset with
    | Fulfilled r => Some (entryOf r)
    | RejectedWith _ => None
    end
end.

(** The events of the task of [asset], in order. *)
Definition ownEvents (workers : option Z) (asset : AssetForMinify) : list Event :=
match output asset with
| Some _ => [EvUpdateAsset (name asset)]
| None =>
    let invoke :=
      EvMinify (match workers with Some _ => true | None => false end)
               (optionsOf asset) in
    match call workers asset with
    | Fulfilled r =>
        [invoke; EvStore (cacheItem asset) (entryOf r); EvUpdateAsset (name asset)]
    | RejectedWith _ => [invoke]
    end
end.

(** The view of a selected asset when its task has settled. *)
Definition settledView (workers : option Z) (c : Compilation)
    (asset : AssetForMinify) : View :=
{| v_asset :=
     match finalOutput workers asset with
     | Some out => Some {| asset_source := c_source out;
                           asset_info := newInfo (info asset) |}
     | None => Some {| asset_source := inputSource asset; asset_info := info asset |}
     end;
   v_errors := taggedWith (name asset) (errors c) ++
               map (fun e => buildError e (name asset)) (ownErrors workers asset);
   v_warnings := taggedWith (name asset) (warnings c) ++
                 map (fun w => buildWarning w (name asset)) (ownWarnings workers asset);
   v_cache :=
     match output asset, call workers asset with
     | None, Fulfilled r => <[cacheItem asset := entryOf r]> (itemsOf (name asset) (cache c))
     | _, _ => itemsOf (name asset) (cache c)
     end;
   v_events := ownEvents workers asset |}.

Definition surfacedError (workers : option Z) (l : list AssetForMinify)
    (e : BuiltError) : Prop :=
  ∃ asset error,
    asset ∈ l ∧ error ∈ ownErrors workers asset ∧ e = buildError error (name asset).

Definition surfacedWarning (workers : option Z) (l : list AssetForMinify)
    (e : BuiltError) : Prop :=
  ∃ asset warning,
    asset ∈ l ∧ warning ∈ ownWarnings workers asset ∧
    e = buildWarning warning (name asset).

(** The sinks only grow, by diagnostics of the assets of the pass. *)
Definition sinksOK (workers : option Z) (l : list AssetForMinify)
    (c : Compilation) (p : Pass) : Prop :=
  ∃ es ws,
    errors (compilation p) = errors c ++ es ∧
    warnings (compilation p) = warnings c ++ ws ∧
    Forall (surfacedError workers l) es ∧
    Forall (surfacedWarning workers l) ws.

(** The pool, when there is one, is the one [getWorker] makes. *)
Definition poolKnown (workers : option Z) (p : Pass) : Prop :=
  ∀ w, initializedWorker p = Some w →
       ∃ n, workers = Some n ∧ w = {| numWorkers := n; enableWorkerThreads := true |}.

(** What every step of the tasks of [l] keeps: each asset of [l] looks
    as its task's phase has it, the other assets look as at the start
    ([v0]), the pool is in order and the trace still starts with [e0]. *)
Definition passInv (workers : option Z) (l : list AssetForMinify)
    (c : Compilation) (v0 : string → View) (e0 : Event)
    (phases : list Phase) (p : Pass) : Prop :=
  (∀ i asset ph, l !! i = Some asset → phases !! i = Some ph →
     phaseOK workers asset ph ∧
     view (name asset) p = expected workers asset ph (v0 (name asset))) ∧
  (∀ n, n ∉ (name <$> l) → view n p = v0 n) ∧
  poolOK workers l p ∧
  head (trace p) = Some e0 ∧
  sinksOK workers l c p.

(** The state in which a pass starts. *)
Definition start (c : Compilation) : Pass :=
  {| compilation := c; initializedWorker := None; trace := [] |}.

(** What a pass over the assets [l] has done when it is over. *)
Definition passDone (workers : option Z) (l : list AssetForMinify)
    (c : Compilation) (p : Pass) : Prop :=
  (∀ asset, asset ∈ l →
     view (name asset) p =
     expected workers asset (Done true) (view (name asset) (start c))) ∧
  (∀ n, n ∉ (name <$> l) → view n p = view n (start c)) ∧
  poolOK workers l p ∧
  sinksOK workers l c p ∧
  (l ≠ [] →
   head (trace p) = Some (EvThrottle (throttleLimit workers l) (length l))) ∧
  (l = [] → p = start c).

(** The selected assets are well formed: they are in the compilation as
    [lookupCache] read them, and their cache items carry their names. *)
Definition selected (c : Compilation) (asset : AssetForMinify) : Prop :=
  lookupCache c (name asset) = Some asset.

End Optimize.

(** ** A build to run passes on *)

Module Example.

(** [matchObject] for the default [test]: every name but ["d.txt"]. *)
Definition matchObject (_ : InternalPluginOptions) (n : string) : bool :=
  negb (bool_decide (n = "d.txt")).

(** The etag of a source: its text. *)
Definition getLazyHashedEtag (s : Source) : string :=
  match source s with
  | SVString x => x
  | SVBuffer _ => ""
  end.

Definition Buffer_toString (_ : list Byte.byte) : string := "".

(** A minimizer that throws on ["b.html"], reports an error in its
    result for ["f.html"], and minimizes the rest with a warning. *)
Definition minify (o : InternalOptions) : Settled :=
  if bool_decide (o_name o = "b.html") then RejectedWith (JString "bad markup")
  else if bool_decide (o_name o = "f.html") then
    Fulfilled {| code := "<f>"; r_warnings := []; r_errors := [JString "unclosed"] |}
  else
    Fulfilled {| code := "<p>hi</p>"; r_warnings := [JString "w"]; r_errors := [] |}.

Definition transform (_ : Worker) (o : InternalOptions) : Settled := minify o.

Definition pluginOptions (parallel : Parallel) : PluginOptions :=
  {| po_minify := None; po_minimizerOptions := OUndefined; po_parallel := parallel;
     po_test := None; po_include := None; po_exclude := None |}.

Definition this : InternalPluginOptions := constructor (pluginOptions (PBool false)).

Definition asset (text : string) (isMinimized : bool) : Asset :=
  {| asset_source := RawSource (SVString text);
     asset_info := {| minimized := isMinimized; otherInfo := [] |} |}.

Definition stored : CacheEntry :=
  {| c_source := RawSource (SVString "<c>");
     c_errors := [JString "old error"];
     c_warnings := [JString "old warning"] |}.

Definition c : Compilation :=
  {| assets := list_to_map
       [("a.html", asset "<p> hi </p>" false); ("b.html", asset "<b" false);
        ("c.html", asset "<c> </c>" false); ("d.txt", asset "text" false);
        ("e.html", asset "<e>" true); ("f.html", asset "<f" false)];
     errors := [];
     warnings := [];
     cache := {[ ("c.html", "<c> </c>") := stored ]} |}.

Definition names : list string :=
  ["a.html"; "b.html"; "c.html"; "d.txt"; "e.html"; "f.html"].

Definition selection (text n : string) (out : option CacheEntry) : AssetForMinify :=
  {| name := n;
     info := {| minimized := false; otherInfo := [] |};
     inputSource := RawSource (SVString text);
     output := out;
     cacheItem := (n, text) |}.

Definition a_html := selection "<p> hi </p>" "a.html" None.
Definition b_html := selection "<b" "b.html" None.
Definition c_html := selection "<c> </c>" "c.html" (Some stored).
Definition f_html := selection "<f" "f.html" None.

Definition l : list AssetForMinify := [a_html; b_html; c_html; f_html].

Definition run (cores : Z) (schedule : list nat) : Outcome :=
  optimize matchObject getLazyHashedEtag Buffer_toString minify transform this
    c names cores schedule.

(** The state a first pass leaves, in process and in list order. *)
Definition firstPass : Pass :=
  match run 0 [] with
  | Resolved p => p
  | _ => start c
  end.

(** The same assets built again, with the cache the first pass left. *)
Definition rebuilt : Compilation :=
  {| assets := assets c;
     errors := [];
     warnings := [];
     cache := cache (compilation firstPass) |}.

(** The names of the assets that no pass selects. *)
Definition skippedNames : list string := ["d.txt"; "e.html"].

End Example.

(** * Facts about the throttle *)

Lemma weight_0_done ph : weight ph = 0%nat → isDone ph = true.
Proof. destruct ph as [|[]|]; simpl; auto; lia. Qed.

Lemma totalWeight_insert phases i ph ph' :
  phases !! i = Some ph →
  (totalWeight (<[i := ph']> phases) + weight ph = totalWeight phases + weight ph')%nat.
Proof.
  unfold totalWeight. revert i.
  induction phases as [|x xs IH]; intros [|i] H; simpl in *; try done.
  - injection H as ->. lia.
  - specialize (IH i H). unfold fmap in *. lia.
Qed.

Lemma totalWeight_0 phases :
  totalWeight phases = 0%nat → forallb isDone phases = true.
Proof.
  unfold totalWeight.
  induction phases as [|x xs IH]; simpl; [done|].
  intros H. unfold fmap in *. rewrite weight_0_done by lia. simpl. apply IH. lia.
Qed.

Lemma totalWeight_replicate n :
  totalWeight (replicate n Pending) = (3 * n)%nat.
Proof. unfold totalWeight. induction n; simpl in *; unfold fmap in *; lia. Qed.

Lemma forallb_isDone_lookup phases i ph :
  forallb isDone phases = true → phases !! i = Some ph → isDone ph = true.
Proof.
  revert i. induction phases as [|x xs IH]; intros [|i]; simpl; try done.
  - intros [H _]%andb_true_iff [= ->]. done.
  - intros [_ H]%andb_true_iff. by apply IH.
Qed.

Lemma no_suspended_inFlight phases :
  list_find isSuspended phases = None → inFlight phases = 0.
Proof.
  intros H%list_find_None. unfold inFlight.
  induction phases as [|x xs IH]; [done|].
  apply Forall_cons in H as [Hx Hxs].
  rewrite filter_cons_False by done. by apply IH.
Qed.

Lemma none_left_done phases :
  list_find isSuspended phases = None →
  list_find isPending phases = None →
  forallb isDone phases = true.
Proof.
  intros Hs%list_find_None Hp%list_find_None.
  induction phases as [|x xs IH]; [done|].
  apply Forall_cons in Hs as [Hx Hxs]. apply Forall_cons in Hp as [Hx' Hxs'].
  simpl. rewrite IH by done.
  destruct x; simpl in *; done.
Qed.

Section ThrottleFacts.

Variable limit : Z.
Variable tasks : list Task.

(** A property of the phases and the state that every step of every
    task keeps. *)
Variable Inv : list Phase → Pass → Prop.

Hypothesis Inv_step : ∀ i body phases p ph,
  tasks !! i = Some body →
  phases !! i = Some ph →
  isDone ph = false →
  Inv phases p →
  Inv (<[i := (body ph p).1]> phases) (body ph p).2.

(** Every step of a task that is not settled brings it closer to it. *)
Hypothesis progress : ∀ i body ph p,
  tasks !! i = Some body →
  isDone ph = false →
  (weight (body ph p).1 < weight ph)%nat.

Lemma resume_Inv i st ph :
  st.1 !! i = Some ph → isDone ph = false →
  Inv st.1 st.2 → Inv (resume tasks i st).1 (resume tasks i st).2.
Proof.
  intros Hph Hnd HI. unfold resume.
  destruct (tasks !! i) as [body|] eqn:Hb; [|done].
  rewrite Hph. simpl. by eapply Inv_step.
Qed.

Lemma throttleStep_Inv i st :
  Inv st.1 st.2 →
  Inv (throttleStep limit tasks st i).1 (throttleStep limit tasks st i).2.
Proof.
  intros HI. unfold throttleStep.
  destruct (st.1 !! i) as [[|k|b]|] eqn:Hph; try done.
  - destruct (mayStart limit st.1 i); [|done].
    by eapply resume_Inv.
  - by eapply resume_Inv.
Qed.

Lemma resume_length i st :
  length (resume tasks i st).1 = length st.1.
Proof.
  unfold resume. destruct (tasks !! i); [|done].
  destruct (st.1 !! i); [|done]. simpl. by rewrite length_insert.
Qed.

Lemma throttleStep_length i st :
  length (throttleStep limit tasks st i).1 = length st.1.
Proof.
  unfold throttleStep.
  destruct (st.1 !! i) as [[|k|b]|]; try done.
  - destruct (mayStart limit st.1 i); [|done]. apply resume_length.
  - apply resume_length.
Qed.

Lemma resume_weight i st ph :
  length st.1 = length tasks →
  st.1 !! i = Some ph → isDone ph = false →
  (totalWeight (resume tasks i st).1 < totalWeight st.1)%nat.
Proof.
  intros Hlen Hph Hd. unfold resume.
  destruct (tasks !! i) as [body|] eqn:Hb.
  - rewrite Hph. simpl.
    pose proof (totalWeight_insert st.1 i ph (body ph st.2).1 Hph) as Hw.
    apply (proj2 (Nat.add_lt_mono_r _ _ (weight ph))). rewrite Hw.
    apply Nat.add_lt_mono_l. by eapply progress.
  - apply lookup_ge_None in Hb. apply lookup_lt_Some in Hph. lia.
Qed.

Lemma throttleStep_weight i st :
  length st.1 = length tasks →
  (totalWeight (throttleStep limit tasks st i).1 ≤ totalWeight st.1)%nat.
Proof.
  intros Hlen. unfold throttleStep.
  destruct (st.1 !! i) as [[|k|b]|] eqn:Hph; try done.
  - destruct (mayStart limit st.1 i); [|done].
    apply Nat.lt_le_incl. by eapply resume_weight.
  - apply Nat.lt_le_incl. by eapply resume_weight.
Qed.

(** The task picked to run the rest does make a step. *)
Lemma nextRunnable_weight st i :
  length st.1 = length tasks →
  nextRunnable limit st.1 = Some i →
  (totalWeight (throttleStep limit tasks st i).1 < totalWeight st.1)%nat.
Proof.
  intros Hlen. unfold nextRunnable, throttleStep.
  destruct (list_find isSuspended st.1) as [[j ph]|] eqn:Hs.
  - intros [= ->]. apply list_find_Some in Hs as (Hj & Hsus & _).
    rewrite Hj. destruct ph; try done. by eapply resume_weight.
  - destruct (list_find isPending st.1) as [[j ph]|] eqn:Hp; [|done].
    case_bool_decide as Hfl; [|done]. intros [= ->].
    pose proof Hp as Hp'.
    apply list_find_Some in Hp as (Hj & Hpen & _).
    rewrite Hj. destruct ph; try done.
    unfold mayStart. rewrite Hp'. simpl.
    rewrite !bool_decide_eq_true_2 by done. simpl.
    by eapply resume_weight.
Qed.

Lemma schedule_facts schedule st :
  length st.1 = length tasks →
  Inv st.1 st.2 →
  let st' := fold_left (throttleStep limit tasks) schedule st in
  length st'.1 = length tasks ∧ Inv st'.1 st'.2 ∧
  (totalWeight st'.1 ≤ totalWeight st.1)%nat.
Proof.
  revert st. induction schedule as [|i rest IH]; intros st Hlen HI; simpl.
  - auto.
  - destruct (IH (throttleStep limit tasks st i)) as (H1 & H2 & H3).
    + by rewrite throttleStep_length.
    + by apply throttleStep_Inv.
    + split_and!; try done.
      pose proof (throttleStep_weight i st Hlen). lia.
Qed.

Lemma drain_facts fuel st :
  1 ≤ limit →
  length st.1 = length tasks →
  Inv st.1 st.2 →
  (totalWeight st.1 ≤ fuel)%nat →
  let st' := drain limit tasks fuel st in
  length st'.1 = length tasks ∧ Inv st'.1 st'.2 ∧ forallb isDone st'.1 = true.
Proof.
  intros Hlim. revert st.
  induction fuel as [|fuel IH]; intros st Hlen HI Hw; simpl.
  - split_and!; try done. apply totalWeight_0. lia.
  - destruct (nextRunnable limit st.1) as [i|] eqn:Hn.
    + apply IH.
      * by rewrite throttleStep_length.
      * by apply throttleStep_Inv.
      * pose proof (nextRunnable_weight st i Hlen Hn). lia.
    + split_and!; try done.
      unfold nextRunnable in Hn.
      destruct (list_find isSuspended st.1) as [[j ph]|] eqn:Hs; [done|].
      destruct (list_find isPending st.1) as [[j ph]|] eqn:Hp.
      * rewrite (no_suspended_inFlight _ Hs) in Hn.
        rewrite bool_decide_eq_true_2 in Hn by lia. done.
      * by apply none_left_done.
Qed.

(** With a limit of at least one, a throttle whose tasks all take at
    most three steps resolves, in a state and with phases that satisfy
    whatever the steps keep. *)
Lemma throttleAll_Inv schedule p :
  1 ≤ limit →
  Inv (replicate (length tasks) Pending) p →
  ∃ phases p',
    throttleRun limit tasks (3 * length tasks) schedule p = (phases, p') ∧
    throttleAll limit tasks (3 * length tasks) schedule p = Some p' ∧
    length phases = length tasks ∧
    forallb isDone phases = true ∧
    Inv phases p'.
Proof.
  intros Hlim HI.
  pose proof (schedule_facts schedule (replicate (length tasks) Pending, p)) as Hs.
  simpl in Hs. rewrite length_replicate in Hs.
  destruct (Hs eq_refl HI) as (H1 & H2 & H3).
  rewrite totalWeight_replicate in H3.
  pose proof (drain_facts (3 * length tasks) _ Hlim H1 H2 H3) as (H4 & H5 & H6).
  unfold throttleAll, throttleRun in *.
  destruct (drain limit tasks (3 * length tasks) _) as [phases p'] eqn:E.
  simpl in *. exists phases, p'. rewrite H6. done.
Qed.

End ThrottleFacts.

(** * Facts about the diagnostics *)




Lemma buildError_message error file :
  (truthy (stackOf error) = false →
   be_message (buildError error file) =
     file +:+ " from Html Minimizer plugin" +:+ nl +:+ template (thrownMessage error)) ∧
  (∀ stack, stackOf error = Some stack → stack ≠ "" →
   be_message (buildError error file) =
     file +:+ " from Html Minimizer plugin" +:+ nl +:+
     match thrownMessage error with Some m => m | None => "" end +:+ nl +:+ stack).
Proof.
  destruct error as [s|isError message stack str]; simpl.
  - split; [done|]. by intros stack.
  - split.
    + by intros ->.
    + intros st -> Hst. simpl. by rewrite bool_decide_eq_false_2.
Qed.

(** * Facts about the trace *)

Lemma filter_isNewWorker_none t :
  Forall (fun e => isNewWorker e = false) t → filter isNewWorker t = [].
Proof.
  induction 1 as [|e t He Ht IH]; [done|].
  rewrite filter_cons_False; [done|]. rewrite He. simpl. tauto.
Qed.

Lemma new_worker_unique pre post pre' post' w w' :
  Forall (fun e => isNewWorker e = false) pre →
  Forall (fun e => isNewWorker e = false) post →
  pre ++ EvNewWorker w :: post = pre' ++ EvNewWorker w' :: post' →
  pre' = pre ∧ w' = w ∧ post' = post.
Proof.
  intros Hpre Hpost. revert pre'.
  induction Hpre as [|e pre He Hpre IH]; intros [|e' pre']; simpl.
  - by intros [= -> ->].
  - intros [= <- ->]. apply Forall_app in Hpost as [_ Hpost].
    apply Forall_cons in Hpost as [Hpost _]. done.
  - intros [= -> _]. done.
  - intros [= -> H]. by destruct (IH pre' H) as (-> & -> & ->).
Qed.

Lemma quiet_not_new t :
  Forall (fun e => isNewWorker e = false ∧ isWorkerCall e = false) t →
  Forall (fun e => isNewWorker e = false) t.
Proof. intros H. eapply Forall_impl; [exact H|]. by intros e [? _]. Qed.

(** * Facts about views *)

Lemma taggedWith_app n l k :
  taggedWith n (l ++ k) = taggedWith n l ++ taggedWith n k.
Proof. apply filter_app. Qed.

Lemma taggedWith_all n l :
  Forall (fun e => be_file e = n) l → taggedWith n l = l.
Proof.
  induction 1 as [|x xs Hx Hxs IH]; [done|].
  unfold taggedWith in *. rewrite filter_cons_True by done. by rewrite IH.
Qed.

Lemma taggedWith_none n l :
  Forall (fun e => be_file e ≠ n) l → taggedWith n l = [].
Proof.
  induction 1 as [|x xs Hx Hxs IH]; [done|].
  unfold taggedWith in *. by rewrite filter_cons_False.
Qed.

Lemma buildError_file error file : be_file (buildError error file) = file.
Proof. destruct error as [|? ? stack ?]; simpl; [done|]. by destruct (truthy stack). Qed.

Lemma buildWarning_file warning file : be_file (buildWarning warning file) = file.
Proof. done. Qed.

Lemma taggedWith_errors n file es :
  taggedWith n (map (fun e => buildError e file) es) =
  if decide (file = n) then map (fun e => buildError e file) es else [].
Proof.
  case_decide as H.
  - apply taggedWith_all, Forall_forall. intros x (e & -> & _)%list_elem_of_fmap.
    by rewrite buildError_file.
  - apply taggedWith_none, Forall_forall. intros x (e & -> & _)%list_elem_of_fmap.
    by rewrite buildError_file.
Qed.

Lemma taggedWith_warnings n file ws :
  taggedWith n (map (fun w => buildWarning w file) ws) =
  if decide (file = n) then map (fun w => buildWarning w file) ws else [].
Proof.
  case_decide as H.
  - apply taggedWith_all, Forall_forall. by intros x (e & -> & _)%list_elem_of_fmap.
  - apply taggedWith_none, Forall_forall. by intros x (e & -> & _)%list_elem_of_fmap.
Qed.

Lemma eventsOf_snoc n t e :
  eventsOf n (t ++ [e]) =
  eventsOf n t ++ (if decide (eventName e = Some n) then [e] else []).
Proof.
  unfold eventsOf. by rewrite filter_app.
Qed.

Lemma itemsOf_insert n k entry m :
  itemsOf n (<[k := entry]> m) =
  if decide (k.1 = n) then <[k := entry]> (itemsOf n m) else itemsOf n m.
Proof.
  unfold itemsOf. case_decide as H.
  - by rewrite map_filter_insert_True.
  - by rewrite map_filter_insert_not.
Qed.

Lemma itemsOf_lookup n k m :
  k.1 = n → itemsOf n m !! k = m !! k.
Proof.
  intros H. unfold itemsOf.
  destruct (m !! k) as [x|] eqn:E.
  - by apply map_lookup_filter_Some_2.
  - apply map_lookup_filter_None. by left.
Qed.

(** * Facts about the tasks of a pass *)

Section OptimizeFacts.

Variable matchObject : InternalPluginOptions -> string -> bool.
Variable getLazyHashedEtag : Source -> string.
Variable Buffer_toString : list Byte.byte -> string.
Variable minify : InternalOptions -> Settled.
Variable transform : Worker -> InternalOptions -> Settled.
Variable this : InternalPluginOptions.

Local Abbreviation task := (task Buffer_toString minify transform this).
Local Abbreviation optionsOf := (optionsOf Buffer_toString this).
Local Abbreviation call := (call Buffer_toString minify transform this).
Local Abbreviation expected := (expected Buffer_toString minify transform this).
Local Abbreviation phaseOK := (phaseOK Buffer_toString minify transform this).
Local Abbreviation poolOK := (poolOK Buffer_toString this).
Local Abbreviation viewInvoke := (viewInvoke Buffer_toString this).
Local Abbreviation lookupCache := (lookupCache getLazyHashedEtag).
Local Abbreviation selected := (selected getLazyHashedEtag).
Local Abbreviation filterAssets := (filterAssets matchObject this).
Local Abbreviation kept := (kept matchObject this).
Local Abbreviation ownErrors := (ownErrors Buffer_toString minify transform this).
Local Abbreviation ownWarnings := (ownWarnings Buffer_toString minify transform this).
Local Abbreviation finalOutput := (finalOutput Buffer_toString minify transform this).
Local Abbreviation ownEvents := (ownEvents Buffer_toString minify transform this).
Local Abbreviation settledView := (settledView Buffer_toString minify transform this).
Local Abbreviation sinksOK := (sinksOK Buffer_toString minify transform this).
Local Abbreviation surfacedError :=
  (surfacedError Buffer_toString minify transform this).
Local Abbreviation surfacedWarning :=
  (surfacedWarning Buffer_toString minify transform this).
Local Abbreviation passDone := (passDone Buffer_toString minify transform this).
Local Abbreviation passInv := (passInv Buffer_toString minify transform this).
Local Abbreviation scheduledTasks :=
  (scheduledTasks Buffer_toString minify transform this).
Local Abbreviation throttleLimit :=
  (throttleLimit Buffer_toString minify transform this).
Local Abbreviation assetsForMinify := (assetsForMinify matchObject getLazyHashedEtag this).
Local Abbreviation optimize :=
  (optimize matchObject getLazyHashedEtag Buffer_toString minify transform this).

Lemma view_addEvent n p e :
  view n (addEvent p e) =
  {| v_asset := v_asset (view n p); v_errors := v_errors (view n p);
     v_warnings := v_warnings (view n p); v_cache := v_cache (view n p);
     v_events := v_events (view n p) ++
                 (if decide (eventName e = Some n) then [e] else []) |}.
Proof. unfold view. simpl. by rewrite eventsOf_snoc. Qed.

Lemma view_replay n asset out p :
  view n (replay asset out p).2 =
  if decide (name asset = n) then viewReplay asset out (view n p) else view n p.
Proof.
  unfold replay, updateAsset. simpl.
  destruct (assets (compilation p) !! name asset) as [old|] eqn:Hold; simpl.
  - rewrite view_addEvent. unfold view, viewReplay. simpl.
    rewrite !taggedWith_app, taggedWith_errors, taggedWith_warnings.
    destruct (decide (name asset = n)) as [Hn|Hn]; simpl.
    + subst n. rewrite Hold, lookup_insert_eq.
      rewrite decide_True by done. done.
    + rewrite lookup_insert_ne by done.
      rewrite decide_False by congruence.
      by rewrite !app_nil_r.
  - unfold view, viewReplay. simpl.
    rewrite !taggedWith_app, taggedWith_errors, taggedWith_warnings.
    destruct (decide (name asset = n)) as [Hn|Hn]; simpl.
    + subst n. rewrite Hold. by rewrite app_nil_r.
    + by rewrite !app_nil_r.
Qed.

Lemma replay_phase asset out p :
  is_Some (assets (compilation p) !! name asset) →
  (replay asset out p).1 = Done true.
Proof.
  intros [old Hold]. unfold replay, updateAsset. simpl. by rewrite Hold.
Qed.

Lemma getWorker_view n k p : view n (getWorker k p).2 = view n p.
Proof.
  unfold getWorker. destruct (initializedWorker p); [done|].
  unfold view. simpl. rewrite eventsOf_snoc. simpl.
  by rewrite app_nil_r.
Qed.

(** A step of the task of [asset] changes nothing about other assets. *)
Lemma task_other workers asset ph p n :
  (cacheItem asset).1 = name asset →
  n ≠ name asset →
  view n (task workers asset ph p).2 = view n p.
Proof.
  intros Hk Hn. unfold task.
  destruct ph as [|[[r|error]|r]|b]; try done.
  - destruct (output asset) as [out|].
    + rewrite view_replay. by rewrite decide_False.
    + destruct workers as [k|]; simpl.
      * rewrite view_addEvent, getWorker_view. simpl.
        rewrite decide_False by congruence. by rewrite app_nil_r.
      * rewrite view_addEvent. simpl.
        rewrite decide_False by congruence. by rewrite app_nil_r.
  - simpl. rewrite view_addEvent. simpl.
    rewrite decide_False by congruence. rewrite app_nil_r.
    unfold view. simpl. rewrite itemsOf_insert. rewrite decide_False by congruence.
    done.
  - simpl. unfold view. simpl. rewrite taggedWith_app.
    unfold taggedWith at 2. rewrite filter_cons_False, filter_nil.
    + by rewrite app_nil_r.
    + by rewrite buildError_file.
  - rewrite view_replay. by rewrite decide_False.
Qed.

Lemma replay_own asset out p :
  is_Some (v_asset (view (name asset) p)) →
  (replay asset out p).1 = Done true ∧
  view (name asset) (replay asset out p).2 = viewReplay asset out (view (name asset) p).
Proof.
  intros H. split; [by apply replay_phase|].
  rewrite view_replay. by rewrite decide_True.
Qed.

(** A step of the task of [asset] takes its view from what is expected
    in one phase to what is expected in the next. *)
Lemma task_own workers asset ph p v0 :
  (cacheItem asset).1 = name asset →
  poolKnown workers p →
  is_Some (v_asset v0) →
  isDone ph = false →
  phaseOK workers asset ph →
  view (name asset) p = expected workers asset ph v0 →
  phaseOK workers asset (task workers asset ph p).1 ∧
  view (name asset) (task workers asset ph p).2 =
    expected workers asset (task workers asset ph p).1 v0.
Proof.
  intros Hk Hpool Hv0 Hnd Hok Hview. unfold task.
  destruct ph as [|[[r|error]|r]|b]; try done; simpl in Hok, Hview.
  - destruct (output asset) as [out|] eqn:Hout.
    + destruct (replay_own asset out p) as [-> ->]; [by rewrite Hview|].
      simpl. by rewrite Hout, Hview.
    + destruct workers as [k|]; simpl.
      * split.
        -- split; [done|]. unfold getWorker.
           destruct (initializedWorker p) as [w|] eqn:Hw; [|done].
           destruct (Hpool w Hw) as (n & [= ->] & ->). done.
        -- rewrite view_addEvent, getWorker_view, Hview. simpl.
           by rewrite decide_True.
      * split; [done|]. rewrite view_addEvent, Hview. simpl.
        by rewrite decide_True.
  - destruct Hok as [Hout Hcall]. simpl. split; [done|].
    rewrite view_addEvent. simpl. rewrite decide_True by congruence.
    unfold view in *. simpl in *. rewrite itemsOf_insert, decide_True by done.
    unfold viewStore. simpl.
    by injection Hview as -> -> -> -> ->.
  - destruct Hok as [Hout Hcall]. simpl. split; [done|].
    rewrite Hout, <- Hcall.
    unfold view in *. simpl in *. rewrite taggedWith_app.
    unfold taggedWith at 2. rewrite filter_cons_True by apply buildError_file.
    rewrite filter_nil. unfold viewFail. simpl.
    by injection Hview as -> -> -> -> ->.
  - destruct Hok as [Hout Hcall].
    destruct (replay_own asset (entryOf r) p) as [-> ->]; [by rewrite Hview|].
    simpl. by rewrite Hout, Hcall, Hview.
Qed.

Lemma task_progress workers asset ph p :
  isDone ph = false →
  (weight (task workers asset ph p).1 < weight ph)%nat.
Proof.
  intros Hnd. unfold task, replay.
  destruct ph as [|[[r|error]|r]|b]; try done; simpl.
  - destruct (output asset); [|destruct workers; simpl; lia].
    destruct (updateAsset _ _ _); simpl; lia.
  - lia.
  - lia.
  - destruct (updateAsset _ _ _); simpl; lia.
Qed.

Lemma poolOK_known workers l p : poolOK workers l p → poolKnown workers p.
Proof.
  unfold poolOK, poolKnown. intros H w Hw. rewrite Hw in H.
  destruct H as (n & _ & _ & _ & -> & -> & _). eauto.
Qed.

Lemma poolOK_setCompilation workers l p c :
  poolOK workers l p → poolOK workers l (setCompilation p c).
Proof. done. Qed.

Lemma poolOK_addEvent workers l p e :
  isNewWorker e = false →
  isWorkerCall e = false ∨ is_Some (initializedWorker p) →
  poolOK workers l p → poolOK workers l (addEvent p e).
Proof.
  intros Hnew Hcall. unfold poolOK, addEvent. simpl.
  destruct (initializedWorker p) as [w|].
  - intros (n & asset & pre & post & -> & -> & Hin & Hout & -> & Hpre & Hpost).
    exists n, asset, pre, (post ++ [e]). split_and!; try done.
    + by rewrite <- app_assoc.
    + apply Forall_app. split; [done|]. by apply Forall_singleton.
  - intros H. apply Forall_app. split; [done|].
    apply Forall_singleton. split; [done|].
    destruct Hcall as [|[? ?]]; done.
Qed.

Lemma replay_pool workers l asset out p :
  poolOK workers l p → poolOK workers l (replay asset out p).2.
Proof.
  intros H. unfold replay.
  destruct (updateAsset _ _ _); simpl.
  - apply poolOK_addEvent; auto.
  - done.
Qed.

Lemma task_pool workers l asset ph p :
  asset ∈ l →
  poolOK workers l p → poolOK workers l (task workers asset ph p).2.
Proof.
  intros Hin H. unfold task.
  destruct ph as [|[[r|error]|r]|b]; try done.
  - destruct (output asset) as [out|] eqn:Hout; [by apply replay_pool|].
    destruct workers as [k|]; simpl.
    + unfold getWorker. destruct (initializedWorker p) as [w|] eqn:Hw.
      * simpl. apply poolOK_addEvent; [done| |done]. right. by rewrite Hw.
      * unfold poolOK in *. rewrite Hw in H. simpl.
        exists k, asset, (trace p), []. split_and!; try done.
        by rewrite <- app_assoc.
    + apply poolOK_addEvent; [done| |done]. by left.
  - simpl. apply poolOK_addEvent; auto.
  - by apply replay_pool.
Qed.

Lemma head_app_Some {A} (l k : list A) x : head l = Some x → head (l ++ k) = Some x.
Proof. by destruct l. Qed.

Lemma task_head workers asset ph p e0 :
  head (trace p) = Some e0 → head (trace (task workers asset ph p).2) = Some e0.
Proof.
  intros H. unfold task, replay, getWorker.
  destruct ph as [|[[r|error]|r]|b]; try done; simpl.
  - destruct (output asset).
    + destruct (updateAsset _ _ _); simpl; [by apply head_app_Some | done].
    + destruct workers; simpl.
      * destruct (initializedWorker p); simpl; by repeat apply head_app_Some.
      * by apply head_app_Some.
  - by apply head_app_Some.
  - destruct (updateAsset _ _ _); simpl; [by apply head_app_Some | done].
Qed.

Lemma sinksOK_same workers l c p q :
  errors (compilation q) = errors (compilation p) →
  warnings (compilation q) = warnings (compilation p) →
  sinksOK workers l c p → sinksOK workers l c q.
Proof. unfold sinksOK. intros -> ->. done. Qed.

Lemma replay_sinks workers l c asset out p :
  asset ∈ l →
  c_errors out = ownErrors workers asset →
  c_warnings out = ownWarnings workers asset →
  sinksOK workers l c p → sinksOK workers l c (replay asset out p).2.
Proof.
  intros Hin He Hw (es & ws & Hes & Hws & Fes & Fws).
  exists (es ++ map (fun e => buildError e (name asset)) (c_errors out)),
         (ws ++ map (fun w => buildWarning w (name asset)) (c_warnings out)).
  split_and!.
  - unfold replay, updateAsset. simpl.
    destruct (assets (compilation p) !! name asset); simpl;
      by rewrite Hes, app_assoc.
  - unfold replay, updateAsset. simpl.
    destruct (assets (compilation p) !! name asset); simpl;
      by rewrite Hws, app_assoc.
  - apply Forall_app. split; [done|].
    apply Forall_forall. intros x (e & -> & Hx)%list_elem_of_fmap.
    exists asset, e. by rewrite <- He.
  - apply Forall_app. split; [done|].
    apply Forall_forall. intros x (w & -> & Hx)%list_elem_of_fmap.
    exists asset, w. by rewrite <- Hw.
Qed.

Lemma task_sinks workers l c asset ph p :
  asset ∈ l →
  phaseOK workers asset ph →
  sinksOK workers l c p → sinksOK workers l c (task workers asset ph p).2.
Proof.
  intros Hin Hok H. unfold task.
  destruct ph as [|[[r|error]|r]|b]; try done; simpl in Hok.
  - destruct (output asset) as [out|] eqn:Hout.
    + apply replay_sinks; try done.
      * unfold ownErrors. by rewrite Hout.
      * unfold ownWarnings. by rewrite Hout.
    + destruct workers as [k|]; simpl.
      * eapply sinksOK_same; [| |done]; unfold getWorker;
          by destruct (initializedWorker p).
      * by eapply sinksOK_same.
  - destruct Hok as [Hout Hcall].
    destruct H as (es & ws & Hes & Hws & Fes & Fws).
    exists (es ++ [buildError error (name asset)]), ws. simpl.
    split_and!; try done.
    + by rewrite Hes, app_assoc.
    + apply Forall_app. split; [done|]. apply Forall_singleton.
      exists asset, error. split_and!; try done.
      unfold ownErrors. rewrite Hout, <- Hcall. set_solver.
  - destruct Hok as [Hout Hcall].
    apply replay_sinks; try done.
    + unfold ownErrors. by rewrite Hout, Hcall.
    + unfold ownWarnings. by rewrite Hout, Hcall.
Qed.

Lemma scheduledTasks_lookup workers l i body :
  scheduledTasks workers l !! i = Some body →
  ∃ asset, l !! i = Some asset ∧ body = task workers asset.
Proof.
  unfold scheduledTasks. revert i.
  induction l as [|a l IH]; intros [|i]; simpl; try done.
  - intros [= <-]. eauto.
  - apply IH.
Qed.

Section Steps.

Variable workers : option Z.
Variable l : list AssetForMinify.
Variable c : Compilation.
Variable v0 : string → View.
Variable e0 : Event.

Hypothesis names_NoDup : NoDup (name <$> l).
Hypothesis keys : ∀ asset, asset ∈ l → (cacheItem asset).1 = name asset.
Hypothesis present : ∀ asset, asset ∈ l → is_Some (v_asset (v0 (name asset))).

Lemma names_differ i j a b :
  l !! i = Some a → l !! j = Some b → i ≠ j → name b ≠ name a.
Proof.
  intros Ha Hb Hij Heq. apply Hij.
  eapply (NoDup_lookup (name <$> l)); [done| |].
  - rewrite list_lookup_fmap, Ha. done.
  - rewrite list_lookup_fmap, Hb. simpl. by rewrite Heq.
Qed.

Lemma passInv_step i body phases p ph :
  scheduledTasks workers l !! i = Some body →
  phases !! i = Some ph →
  isDone ph = false →
  passInv workers l c v0 e0 phases p →
  passInv workers l c v0 e0
    (<[i := (body ph p).1]> phases) (body ph p).2.
Proof.
  intros (a & Ha & ->)%scheduledTasks_lookup Hph Hnd
         (Hown & Hframe & Hpool & Hhead & Hsinks).
  assert (a ∈ l) as Hin by (by eapply list_elem_of_lookup_2).
  destruct (Hown i a ph Ha Hph) as [Hok Hview].
  split_and!.
  - intros j b ph' Hb Hph'.
    destruct (decide (i = j)) as [<-|Hij].
    + rewrite list_lookup_insert_eq in Hph' by (by eapply lookup_lt_Some).
      injection Hph' as <-. assert (b = a) as -> by congruence.
      apply task_own; auto. by eapply poolOK_known.
    + rewrite list_lookup_insert_ne in Hph' by done.
      rewrite task_other;
        [by eapply Hown | apply keys; by eapply list_elem_of_lookup_2
        | by eapply names_differ].
  - intros n Hn. rewrite task_other; [by apply Hframe | by apply keys |].
    intros ->. apply Hn. apply list_elem_of_fmap. eauto.
  - by apply task_pool.
  - by apply task_head.
  - by apply task_sinks.
Qed.

End Steps.

(** ** The selection of the assets *)

Lemma filterAssets_kept c names :
  Forall (fun n => is_Some (getAsset c n)) names →
  filterAssets c names = Some (kept c names).
Proof.
  unfold kept.
  induction 1 as [|n names [a Ha] Hnames IH]; [done|].
  simpl. rewrite IH.
  destruct (keepAsset matchObject this c n) as [[|]|] eqn:Hk.
  - by rewrite filter_cons_True.
  - rewrite filter_cons_False; [done | by rewrite Hk].
  - unfold keepAsset in Hk. by rewrite Ha in Hk.
Qed.

Lemma lookupCache_name c n asset :
  lookupCache c n = Some asset → name asset = n.
Proof.
  unfold lookupCache. destruct (getAsset c n); [|done]. by intros [= <-].
Qed.

Lemma lookupCache_all c names :
  Forall (fun n => is_Some (getAsset c n)) names →
  ∃ l, mapM (lookupCache c) names = Some l ∧
       name <$> l = names ∧ Forall (selected c) l.
Proof.
  induction 1 as [|n names [a Ha] Hnames (l & Hl & Hn & Hs)].
  - exists []. done.
  - destruct (lookupCache c n) as [asset|] eqn:Hasset.
    + exists (asset :: l). split_and!.
      * simpl. rewrite Hasset. simpl. by rewrite Hl.
      * by rewrite fmap_cons, Hn, (lookupCache_name c n asset Hasset).
      * apply Forall_cons. split; [|done].
        unfold selected. by rewrite (lookupCache_name c n asset Hasset).
    + unfold lookupCache in Hasset. by rewrite Ha in Hasset.
Qed.

Lemma assetsForMinify_spec c names :
  Forall (fun n => is_Some (getAsset c n)) names →
  ∃ l, assetsForMinify c names = Some l ∧
       name <$> l = kept c names ∧ Forall (selected c) l.
Proof.
  intros H. unfold assetsForMinify. rewrite filterAssets_kept by done.
  apply lookupCache_all. unfold kept.
  apply Forall_forall. intros n [_ Hn]%list_elem_of_filter.
  rewrite Forall_forall in H. by apply H.
Qed.

Lemma lookupCache_Some c n asset :
  lookupCache c n = Some asset →
  name asset = n ∧
  (cacheItem asset).1 = n ∧
  assets c !! n =
    Some {| asset_source := inputSource asset; asset_info := info asset |} ∧
  output asset = cache c !! cacheItem asset ∧
  cacheItem asset = (n, getLazyHashedEtag (inputSource asset)).
Proof.
  unfold lookupCache, getAsset.
  destruct (assets c !! n) as [[src inf]|]; [|done].
  by intros [= <-].
Qed.

Lemma selected_key c asset :
  selected c asset → (cacheItem asset).1 = name asset.
Proof. intros H. by apply lookupCache_Some in H as (_ & ? & _). Qed.

Lemma selected_present c asset :
  selected c asset →
  assets c !! name asset =
    Some {| asset_source := inputSource asset; asset_info := info asset |}.
Proof. intros H. by apply lookupCache_Some in H as (_ & _ & ? & _). Qed.

Lemma selected_output c asset :
  selected c asset → output asset = cache c !! cacheItem asset.
Proof. intros H. by apply lookupCache_Some in H as (_ & _ & _ & ? & _). Qed.

(** ** A whole pass *)

Lemma scheduledTasks_length workers l : length (scheduledTasks workers l) = length l.
Proof. unfold scheduledTasks. apply length_map. Qed.

Lemma throttleLimit_pos l cores :
  l ≠ [] → 1 ≤ throttleLimit (numberOfWorkers l cores) l.
Proof.
  intros Hl. unfold throttleLimit, numberOfWorkers.
  rewrite scheduledTasks_length.
  assert (1 ≤ Z.of_nat (length l)) by (destruct l; [done | simpl; lia]).
  repeat case_bool_decide; lia.
Qed.

Lemma view_teardown n p : view n (teardown p) = view n p.
Proof.
  unfold teardown. destruct (initializedWorker p); [|done].
  rewrite view_addEvent. simpl. by rewrite app_nil_r.
Qed.

Lemma poolOK_teardown workers l p : poolOK workers l p → poolOK workers l (teardown p).
Proof.
  intros H. unfold teardown. destruct (initializedWorker p) eqn:Hw; [|done].
  apply poolOK_addEvent; [done| |done]. right. by rewrite Hw.
Qed.

Lemma sinksOK_teardown workers l c p :
  sinksOK workers l c p → sinksOK workers l c (teardown p).
Proof.
  apply sinksOK_same; unfold teardown; by destruct (initializedWorker p).
Qed.

Lemma head_teardown p e0 : head (trace p) = Some e0 → head (trace (teardown p)) = Some e0.
Proof.
  intros H. unfold teardown. destruct (initializedWorker p); [|done].
  by apply head_app_Some.
Qed.

(** Every pass over assets the compilation knows resolves, whatever the
    schedule, and has then done what [passDone] says. *)
Lemma optimize_done c names cores schedule :
  NoDup names →
  Forall (fun n => is_Some (getAsset c n)) names →
  ∃ l p,
    assetsForMinify c names = Some l ∧
    name <$> l = kept c names ∧
    Forall (selected c) l ∧
    optimize c names cores schedule = Resolved p ∧
    passDone (numberOfWorkers l cores) l c p.
Proof.
  intros Hnd Hnames.
  destruct (assetsForMinify_spec c names Hnames) as (l & Hl & Hkept & Hsel).
  exists l. unfold optimize. rewrite Hl.
  destruct l as [|a0 l0] eqn:El.
  - exists (start c). split_and!; try done.
    unfold passDone. split_and!; try done.
    + intros asset Hin. by apply elem_of_nil in Hin.
    + apply Forall_nil_2.
    + exists [], []. by rewrite !app_nil_r.
  - rewrite <- El in *.
    assert (l ≠ []) as Hne by (by rewrite El).
    clear El a0 l0 Hl.
    set (workers := numberOfWorkers l cores).
    set (limit := throttleLimit workers l).
    set (tasks := scheduledTasks workers l).
    set (e0 := EvThrottle limit (length tasks)).
    set (p0 := {| compilation := c; initializedWorker := None; trace := [e0] |}).
    assert (NoDup (name <$> l)) as Hnd'.
    { rewrite Hkept. by apply NoDup_filter. }
    rewrite Forall_forall in Hsel.
    destruct (throttleAll_Inv limit tasks
                (passInv workers l c (fun n => view n (start c)) e0)) with
      (schedule := schedule) (p := p0) as (phases & p & _ & -> & Hlen & Hdone & HI).
    + intros i body phs q ph. apply passInv_step; try done.
      * intros asset Hin. apply (selected_key c). by apply Hsel.
      * intros asset Hin. simpl.
        rewrite (selected_present c asset) by (by apply Hsel). eauto.
    + intros i body ph q (asset & _ & ->)%scheduledTasks_lookup.
      apply task_progress.
    + by apply throttleLimit_pos.
    + split_and!; try done.
      * intros i asset ph _ Hph. apply lookup_replicate in Hph as [-> _]. done.
      * by apply Forall_singleton.
      * exists [], []. by rewrite !app_nil_r.
    + exists (teardown p).
      destruct HI as (Hown & Hframe & Hpool & Hhead & Hsinks).
      split_and!; try done; [by apply Forall_forall|].
      unfold passDone. split_and!.
      * intros asset [i Hi]%list_elem_of_lookup_1.
        rewrite view_teardown.
        destruct (lookup_lt_is_Some_2 phases i) as [ph Hph].
        { rewrite Hlen. unfold tasks. rewrite scheduledTasks_length.
          by eapply lookup_lt_Some. }
        destruct (Hown i asset ph Hi Hph) as [Hok ->].
        pose proof (forallb_isDone_lookup phases i ph Hdone Hph) as Hd.
        destruct ph as [| |b]; try done.
      * intros n Hn. rewrite view_teardown. by apply Hframe.
      * by apply poolOK_teardown.
      * by apply sinksOK_teardown.
      * intros _. apply head_teardown. rewrite Hhead. unfold e0, tasks.
        by rewrite scheduledTasks_length.
      * done.
Qed.

Lemma filterAssets_known c names k :
  filterAssets c names = Some k → Forall (fun n => is_Some (getAsset c n)) names.
Proof.
  revert k. induction names as [|n names IH]; intros k; simpl; [done|].
  unfold keepAsset. destruct (getAsset c n) as [a|] eqn:Ha; [|done].
  destruct (filterAssets c names) as [k'|]; [|done].
  intros _. apply Forall_cons. split; [by rewrite Ha | by eapply IH].
Qed.

Lemma assetsForMinify_known c names l :
  assetsForMinify c names = Some l → Forall (fun n => is_Some (getAsset c n)) names.
Proof.
  unfold assetsForMinify.
  destruct (filterAssets c names) as [k|] eqn:Hk; [|done].
  intros _. by eapply filterAssets_known.
Qed.

(** The pass over the selected assets [l] resolves and is done. *)
Lemma pass_of c names cores schedule l :
  NoDup names →
  assetsForMinify c names = Some l →
  ∃ p, optimize c names cores schedule = Resolved p ∧
       passDone (numberOfWorkers l cores) l c p ∧
       Forall (selected c) l ∧
       name <$> l = kept c names.
Proof.
  intros Hnd Hl.
  destruct (optimize_done c names cores schedule Hnd
              (assetsForMinify_known c names l Hl))
    as (l' & p & Hl' & Hk & Hs & Ho & Hd).
  assert (l' = l) as -> by congruence. eauto.
Qed.

Lemma start_view c asset :
  selected c asset →
  view (name asset) (start c) =
  {| v_asset := Some {| asset_source := inputSource asset; asset_info := info asset |};
     v_errors := taggedWith (name asset) (errors c);
     v_warnings := taggedWith (name asset) (warnings c);
     v_cache := itemsOf (name asset) (cache c);
     v_events := [] |}.
Proof. intros H. unfold view. simpl. by rewrite (selected_present c asset H). Qed.

Lemma events_about n t e :
  e ∈ t → eventName e = Some n → e ∈ eventsOf n t.
Proof. intros. by apply list_elem_of_filter. Qed.

Lemma settled_expected workers c asset :
  selected c asset →
  expected workers asset (Done true) (view (name asset) (start c)) =
  settledView workers c asset.
Proof.
  intros H. rewrite (start_view c asset H).
  unfold settledView, finalOutput, ownErrors, ownWarnings, ownEvents. simpl.
  destruct (output asset) as [out|]; [done|].
  destruct (call workers asset) as [r|error];
    unfold viewFail, viewReplay, viewStore, viewInvoke; simpl;
    by rewrite ?app_nil_r.
Qed.

(** All that a pass leaves about an asset it selected. *)
Lemma settled c names cores schedule l :
  NoDup names →
  assetsForMinify c names = Some l →
  ∃ p, optimize c names cores schedule = Resolved p ∧
       passDone (numberOfWorkers l cores) l c p ∧
       ∀ asset, asset ∈ l →
         selected c asset ∧
         view (name asset) p = settledView (numberOfWorkers l cores) c asset.
Proof.
  intros Hnd Hl.
  destruct (pass_of c names cores schedule l Hnd Hl) as (p & Ho & Hd & Hs & _).
  exists p. split_and!; try done.
  intros asset Hin. rewrite Forall_forall in Hs.
  split; [by apply Hs|].
  destruct Hd as (Hown & _). rewrite (Hown asset Hin).
  apply settled_expected. by apply Hs.
Qed.

Lemma selected_kept c names l asset :
  name <$> l = kept c names →
  selected c asset →
  asset ∈ l →
  name asset ∈ names ∧ minimized (info asset) = false ∧
  matchObject this (name asset) = true.
Proof.
  intros Hk Hs Hin.
  assert (name asset ∈ kept c names) as [Hkeep Hn]%list_elem_of_filter.
  { rewrite <- Hk. apply list_elem_of_fmap. eauto. }
  split; [done|].
  unfold keepAsset, getAsset in Hkeep.
  rewrite (selected_present c asset Hs) in Hkeep. simpl in Hkeep.
  destruct (minimized (info asset)); [done|].
  by destruct (matchObject this (name asset)).
Qed.

(** C1: an asset of [assetsForMinify] whose cache item gave a stored
    entry is replayed without any minimizer being invoked for it: no
    minimization call in the trace is about it, the only event about it
    is the update of the asset, the stored warnings and errors are pushed
    to the sinks tagged with its name, and the asset becomes the stored
    source with [minimized: true]. *)
Theorem cache_hit_replays_stored_output c names cores schedule l asset entry :
  NoDup names →
  assetsForMinify c names = Some l →
  asset ∈ l →
  output asset = Some entry →
  ∃ p, optimize c names cores schedule = Resolved p ∧
       (∀ viaWorker options,
          EvMinify viaWorker options ∈ trace p → o_name options ≠ name asset) ∧
       eventsOf (name asset) (trace p) = [EvUpdateAsset (name asset)] ∧
       taggedWith (name asset) (warnings (compilation p)) =
         taggedWith (name asset) (warnings c) ++
         map (fun w => buildWarning w (name asset)) (c_warnings entry) ∧
       taggedWith (name asset) (errors (compilation p)) =
         taggedWith (name asset) (errors c) ++
         map (fun e => buildError e (name asset)) (c_errors entry) ∧
       assets (compilation p) !! name asset =
         Some {| asset_source := c_source entry;
                 asset_info := newInfo (info asset) |} ∧
       minimized (newInfo (info asset)) = true.
Proof.
  intros Hnd Hl Hin Hout.
  destruct (pass_of c names cores schedule l Hnd Hl) as (p & Ho & Hd & Hs & _).
  exists p. split; [done|].
  destruct Hd as (Hown & _).
  rewrite Forall_forall in Hs.
  pose proof (Hown asset Hin) as Hv.
  rewrite (start_view c asset (Hs asset Hin)) in Hv.
  simpl in Hv. rewrite Hout in Hv. unfold viewReplay in Hv. simpl in Hv.
  assert (eventsOf (name asset) (trace p) = [EvUpdateAsset (name asset)]) as He
    by apply (f_equal v_events Hv).
  split_and!; try done.
  - intros viaWorker options Hel Hname.
    pose proof (events_about (name asset) (trace p) _ Hel) as H.
    rewrite He in H. simpl in H. specialize (H (f_equal Some Hname)).
    by apply list_elem_of_singleton in H.
  - apply (f_equal v_warnings Hv).
  - apply (f_equal v_errors Hv).
  - apply (f_equal v_asset Hv).
Qed.



(** C7: an asset that is already flagged [minimized], or that
    [matchObject] rejects, is not among the assets the tasks are made
    for, the pass has no event about it, and its entry in the asset graph
    is after the pass what it was before. *)
Theorem skipped_asset_untouched c names cores schedule n a :
  NoDup names →
  Forall (fun n => is_Some (getAsset c n)) names →
  getAsset c n = Some a →
  minimized (asset_info a) = true ∨ matchObject this n = false →
  ∃ l p, assetsForMinify c names = Some l ∧
         optimize c names cores schedule = Resolved p ∧
         (n ∉ (name <$> l)) ∧
         length (scheduledTasks (numberOfWorkers l cores) l) = length l ∧
         eventsOf n (trace p) = [] ∧
         assets (compilation p) !! n = Some a.
Proof.
  intros Hnd Hnames Ha Hskip.
  destruct (optimize_done c names cores schedule Hnd Hnames)
    as (l & p & Hl & Hk & Hs & Ho & Hd).
  assert (n ∉ (name <$> l)) as Hn.
  { rewrite Hk. intros [Hkeep _]%list_elem_of_filter.
    unfold keepAsset in Hkeep. rewrite Ha in Hkeep.
    destruct Hskip as [H | H]; rewrite H in Hkeep; [done|].
    by destruct (minimized (asset_info a)). }
  destruct Hd as (_ & Hframe & _).
  exists l, p. split_and!; try done.
  - apply scheduledTasks_length.
  - apply (f_equal v_events (Hframe n Hn)).
  - rewrite <- Ha. apply (f_equal v_asset (Hframe n Hn)).
Qed.

(** C10: for every selected asset the events of the pass about it are,
    in order: for a cache hit, the update of the asset alone; for a call
    that resolved, the call, then one store of the cache item, then the
    update of the asset; for a call that rejected, the call alone, and
    then the cache holds for the asset what it held before.  So there is
    at most one store per asset, only after a call that resolved and
    before the asset is updated. *)
Theorem cache_store_only_on_success c names cores schedule l asset :
  NoDup names →
  assetsForMinify c names = Some l →
  asset ∈ l →
  ∃ p, optimize c names cores schedule = Resolved p ∧
       eventsOf (name asset) (trace p) =
         match output asset with
         | Some _ => [EvUpdateAsset (name asset)]
         | None =>
             let invoke :=
               EvMinify (bool_decide (cores > 0)) (optionsOf asset) in
             match call (numberOfWorkers l cores) asset with
             | Fulfilled r =>
                 [invoke; EvStore (cacheItem asset) (entryOf r);
                  EvUpdateAsset (name asset)]
             | RejectedWith _ => [invoke]
             end
         end ∧
       (length (filter isStore (eventsOf (name asset) (trace p))) ≤ 1)%nat ∧
       (∀ key entry, EvStore key entry ∈ trace p → key.1 = name asset →
          output asset = None ∧
          call (numberOfWorkers l cores) asset = Fulfilled
            {| code := match source (c_source entry) with
                       | SVString s => s | SVBuffer _ => "" end;
               r_warnings := c_warnings entry; r_errors := c_errors entry |}) ∧
       (∀ error,
          output asset = None →
          call (numberOfWorkers l cores) asset = RejectedWith error →
          itemsOf (name asset) (cache (compilation p)) = itemsOf (name asset) (cache c) ∧
          cache (compilation p) !! cacheItem asset = None).
Proof.
  intros Hnd Hl Hin.
  destruct (settled c names cores schedule l Hnd Hl) as (p & Ho & Hd & Hv).
  exists p. split; [done|].
  destruct (Hv asset Hin) as [Hs Hview].
  assert (eventsOf (name asset) (trace p) = ownEvents (numberOfWorkers l cores) asset)
    as He by apply (f_equal v_events Hview).
  assert ((match numberOfWorkers l cores with Some _ => true | None => false end)
          = bool_decide (cores > 0)) as Hw.
  { unfold numberOfWorkers. by case_bool_decide. }
  unfold ownEvents in He. rewrite Hw in He.
  split_and!.
  - done.
  - rewrite He. destruct (output asset); [simpl; lia|].
    destruct (call _ asset); simpl; lia.
  - intros key entry Hel Hkey.
    pose proof (events_about (name asset) (trace p) _ Hel (f_equal Some Hkey)) as H.
    rewrite He in H.
    destruct (output asset) as [out|].
    { by apply list_elem_of_singleton in H. }
    destruct (call _ asset) as [r|error].
    + split; [done|].
      apply elem_of_cons in H as [H|H]; [done|].
      apply elem_of_cons in H as [H|H].
      * injection H as _ ->. by destruct r.
      * by apply list_elem_of_singleton in H.
    + by apply list_elem_of_singleton in H.
  - intros error Hout Hcall.
    pose proof (f_equal v_cache Hview) as Hc. simpl in Hc.
    rewrite Hout, Hcall in Hc. split; [done|].
    rewrite <- (itemsOf_lookup (name asset)) by (by apply (selected_key c)).
    rewrite Hc, itemsOf_lookup by (by apply (selected_key c)).
    by rewrite <- (selected_output c asset Hs).
Qed.

(** ** The pool of a pass *)

Lemma pool_none workers l p :
  poolOK workers l p → initializedWorker p = None →
  Forall (fun e => isNewWorker e = false ∧ isWorkerCall e = false) (trace p).
Proof. unfold poolOK. intros H Hw. by rewrite Hw in H. Qed.

Lemma pool_some workers l p w :
  poolOK workers l p → initializedWorker p = Some w →
  ∃ n asset pre post,
    workers = Some n ∧
    w = {| numWorkers := n; enableWorkerThreads := true |} ∧
    asset ∈ l ∧ output asset = None ∧
    trace p = pre ++ EvNewWorker w :: EvMinify true (optionsOf asset) :: post ∧
    Forall (fun e => isNewWorker e = false ∧ isWorkerCall e = false) pre ∧
    Forall (fun e => isNewWorker e = false) post.
Proof. unfold poolOK. intros H Hw. by rewrite Hw in H. Qed.

(** C8: in a pass, the trace has at most one creation of a worker pool;
    a creation is preceded by no call through a pool and by no other
    creation, and is followed at once by the minimization call of a cache
    miss, the task whose [getWorker()] made it; and when every selected
    asset is a cache hit there is no creation and no pool, however many
    cores are available. *)
Theorem pool_created_lazily_at_most_once c names cores schedule l :
  NoDup names →
  assetsForMinify c names = Some l →
  ∃ p, optimize c names cores schedule = Resolved p ∧
       (length (filter isNewWorker (trace p)) ≤ 1)%nat ∧
       (∀ pre w post,
          trace p = pre ++ EvNewWorker w :: post →
          Forall (fun e => isNewWorker e = false ∧ isWorkerCall e = false) pre ∧
          Forall (fun e => isNewWorker e = false) post ∧
          initializedWorker p = Some w ∧
          ∃ asset, asset ∈ l ∧ output asset = None ∧
                   head post = Some (EvMinify true (optionsOf asset))) ∧
       (Forall (fun asset => is_Some (output asset)) l →
        initializedWorker p = None ∧ filter isNewWorker (trace p) = []).
Proof.
  intros Hnd Hl.
  destruct (settled c names cores schedule l Hnd Hl) as (p & Ho & Hd & Hv).
  exists p. split; [done|].
  destruct Hd as (_ & _ & Hpool & _).
  destruct (initializedWorker p) as [w|] eqn:Hw.
  - destruct (pool_some _ _ _ w Hpool Hw)
      as (n & asset & pre & post & Hn & -> & Hin & Hout & Ht & Hpre & Hpost).
    assert (Forall (fun e => isNewWorker e = false)
              (EvMinify true (optionsOf asset) :: post)) as Hpost'
      by (by apply Forall_cons).
    split_and!.
    + rewrite Ht, filter_app, filter_cons_True by done.
      rewrite !filter_isNewWorker_none; [simpl; lia|done|by apply quiet_not_new].
    + intros pre' w' post' Ht'. rewrite Ht in Ht'.
      destruct (new_worker_unique _ _ _ _ _ _ (quiet_not_new _ Hpre) Hpost' Ht')
        as (-> & -> & ->).
      split_and!; try done. exists asset. done.
    + intros Hall. rewrite Forall_forall in Hall.
      destruct (Hall asset Hin) as [out Hout']. congruence.
  - pose proof (pool_none _ _ _ Hpool Hw) as Hq.
    split_and!.
    + rewrite filter_isNewWorker_none; [simpl; lia | by apply quiet_not_new].
    + intros pre w post Ht. rewrite Ht in Hq.
      apply Forall_app in Hq as [_ Hq]. apply Forall_cons in Hq as [[Hq _] _]. done.
    + intros _. split; [done|].
      apply filter_isNewWorker_none. by apply quiet_not_new.
Qed.

(** C9: what a pass adds to the sinks are errors built by [buildError]
    and warnings built by [buildWarning] from the diagnostics of a
    selected asset, each with that asset's name as its [file].  The
    message of a built error starts with the asset's name and
    [from Html Minimizer plugin]; it goes on with the message of the
    error when the error has no stack, and with the message, a line feed
    and the stack itself when it has one. *)
Theorem diagnostics_carry_asset_name c names cores schedule l :
  NoDup names →
  assetsForMinify c names = Some l →
  ∃ p es ws,
    optimize c names cores schedule = Resolved p ∧
    errors (compilation p) = errors c ++ es ∧
    warnings (compilation p) = warnings c ++ ws ∧
    Forall (fun e =>
              ∃ asset error,
                asset ∈ l ∧ error ∈ ownErrors (numberOfWorkers l cores) asset ∧
                e = buildError error (name asset) ∧
                be_file e = name asset ∧
                (truthy (stackOf error) = false →
                 be_message e =
                   name asset +:+ " from Html Minimizer plugin" +:+ nl +:+
                   template (thrownMessage error)) ∧
                (∀ stack, stackOf error = Some stack → stack ≠ "" →
                 be_message e =
                   name asset +:+ " from Html Minimizer plugin" +:+ nl +:+
                   match thrownMessage error with Some m => m | None => "" end
                   +:+ nl +:+ stack)) es ∧
    Forall (fun e =>
              ∃ asset warning,
                asset ∈ l ∧ warning ∈ ownWarnings (numberOfWorkers l cores) asset ∧
                e = buildWarning warning (name asset) ∧
                be_file e = name asset) ws.
Proof.
  intros Hnd Hl.
  destruct (settled c names cores schedule l Hnd Hl) as (p & Ho & Hd & Hv).
  destruct Hd as (_ & _ & _ & (es & ws & Hes & Hws & Fes & Fws) & _).
  exists p, es, ws. split_and!; try done.
  - eapply Forall_impl; [exact Fes|].
    intros e (asset & error & Hin & Herr & ->).
    exists asset, error. split_and!; try done.
    + apply buildError_file.
    + apply buildError_message.
    + apply buildError_message.
  - eapply Forall_impl; [exact Fws|].
    intros e (asset & warning & Hin & Hwarn & ->).
    exists asset, warning. done.
Qed.

Lemma numberOfAssets_misses l :
  numberOfAssets l = Z.of_nat (length (filter (fun asset => output asset = None) l)).
Proof.
  unfold numberOfAssets. do 2 f_equal.
  induction l as [|a l IH]; [done|].
  rewrite !filter_cons, IH.
  destruct (decide (isMiss a)) as [H|H], (decide (output a = None)) as [H'|H'];
    try done; unfold isMiss in H; destruct (output a); simpl in H; try done.
Qed.

Lemma numberOfWorkers_None l cores : cores ≤ 0 → numberOfWorkers l cores = None.
Proof. intros H. unfold numberOfWorkers. by rewrite bool_decide_eq_false_2 by lia. Qed.

Lemma numberOfWorkers_Some l cores :
  cores > 0 → numberOfWorkers l cores = Some (Z.min (numberOfAssets l) cores).
Proof. intros H. unfold numberOfWorkers. by rewrite bool_decide_eq_true_2 by lia. Qed.

(** Without [getWorker] a pass has no pool and makes every call in process. *)
Lemma no_workers_no_pool l p :
  poolOK None l p →
  initializedWorker p = None ∧
  filter isNewWorker (trace p) = [] ∧
  ∀ viaWorker options, EvMinify viaWorker options ∈ trace p → viaWorker = false.
Proof.
  intros Hpool.
  destruct (initializedWorker p) as [w|] eqn:Hw.
  - by destruct (pool_some _ _ _ w Hpool Hw) as (n & ? & ? & ? & ? & _).
  - pose proof (pool_none _ _ _ Hpool Hw) as Hq. split_and!; [done| |].
    + apply filter_isNewWorker_none. by apply quiet_not_new.
    + intros viaWorker options Hel. rewrite Forall_forall in Hq.
      destruct (Hq _ Hel) as [_ H]. by destruct viaWorker.
Qed.


(** C3: with a positive number of available cores, the number of workers
    is the smaller of the count of cache misses among the selected assets
    and the number of cores; a pool that is created has that many
    workers, and one is created as soon as there is a miss, the throttle
    then running with that limit.  With [parallel: true] on four cores,
    ten selected assets and no cache hit, the pool has three workers and
    the limit is three. *)
Theorem workers_are_min_of_misses_and_cores c names cores schedule l :
  NoDup names →
  assetsForMinify c names = Some l →
  cores > 0 →
  numberOfAssets l =
    Z.of_nat (length (filter (fun asset => output asset = None) l)) ∧
  numberOfWorkers l cores = Some (Z.min (numberOfAssets l) cores) ∧
  ∃ p, optimize c names cores schedule = Resolved p ∧
       (∀ w, EvNewWorker w ∈ trace p →
             numWorkers w = Z.min (numberOfAssets l) cores) ∧
       (numberOfAssets l > 0 →
        initializedWorker p =
          Some {| numWorkers := Z.min (numberOfAssets l) cores;
                  enableWorkerThreads := true |} ∧
        EvNewWorker {| numWorkers := Z.min (numberOfAssets l) cores;
                       enableWorkerThreads := true |} ∈ trace p ∧
        head (trace p) =
          Some (EvThrottle (Z.min (numberOfAssets l) cores) (length l))) ∧
       (cores = getAvailableNumberOfCores (Some 4%nat) (PBool true) →
        length l = 10%nat →
        numberOfAssets l = 10 →
        initializedWorker p = Some {| numWorkers := 3; enableWorkerThreads := true |} ∧
        head (trace p) = Some (EvThrottle 3 10)).
Proof.
  intros Hnd Hl Hcores.
  pose proof (numberOfAssets_misses l) as Hcount.
  split; [done|]. split; [by apply numberOfWorkers_Some|].
  destruct (settled c names cores schedule l Hnd Hl) as (p & Ho & Hd & Hv).
  destruct Hd as (_ & _ & Hpool & _ & Hhead & _).
  rewrite (numberOfWorkers_Some l cores Hcores) in *.
  set (k := Z.min (numberOfAssets l) cores) in *.
  exists p. split; [done|].
  assert (∀ w, EvNewWorker w ∈ trace p →
               w = {| numWorkers := k; enableWorkerThreads := true |} ∧
               initializedWorker p = Some w) as Hnew.
  { intros w Hel.
    destruct (initializedWorker p) as [w0|] eqn:Hw.
    - destruct (pool_some _ _ _ w0 Hpool Hw)
        as (n & asset & pre & post & [= <-] & -> & Hin & Hout & Ht & Hpre & Hpost).
      apply list_elem_of_split in Hel as (pre' & post' & Ht').
      rewrite Ht in Ht'.
      assert (Forall (fun e => isNewWorker e = false)
                (EvMinify true (optionsOf asset) :: post)) as Hpost'
        by (by apply Forall_cons).
      by destruct (new_worker_unique _ _ _ _ _ _ (quiet_not_new _ Hpre) Hpost' Ht')
        as (_ & -> & _).
    - pose proof (pool_none _ _ _ Hpool Hw) as Hq. rewrite Forall_forall in Hq.
      by destruct (Hq _ Hel) as [? _]. }
  assert (numberOfAssets l > 0 →
          initializedWorker p = Some {| numWorkers := k; enableWorkerThreads := true |} ∧
          EvNewWorker {| numWorkers := k; enableWorkerThreads := true |} ∈ trace p ∧
          head (trace p) = Some (EvThrottle k (length l))) as Hpos.
  { intros Hmiss.
    assert (l ≠ []) as Hne.
    { intros E. rewrite Hcount, E in Hmiss. simpl in Hmiss. lia. }
    specialize (Hhead Hne). unfold throttleLimit in Hhead.
    rewrite bool_decide_eq_true_2 in Hhead by done.
    assert (∃ asset, asset ∈ l ∧ output asset = None) as (asset & Hin & Hout).
    { rewrite Hcount in Hmiss.
      destruct (filter (fun asset => output asset = None) l) as [|a rest] eqn:Hf;
        [simpl in Hmiss; lia|].
      assert (a ∈ filter (fun asset => output asset = None) l) as Ha
        by (rewrite Hf; apply list_elem_of_here).
      apply list_elem_of_filter in Ha as [? ?]. eauto. }
    destruct (Hv asset Hin) as [Hs Hview].
    pose proof (f_equal v_events Hview) as He. simpl in He.
    unfold ownEvents in He. rewrite Hout in He.
    assert (EvMinify true (optionsOf asset) ∈ trace p) as Hcall.
    { assert (EvMinify true (optionsOf asset) ∈ eventsOf (name asset) (trace p)) as H.
      { rewrite He. destruct (call _ asset); apply list_elem_of_here. }
      by apply list_elem_of_filter in H as [_ ?]. }
    destruct (initializedWorker p) as [w0|] eqn:Hw.
    - destruct (pool_some _ _ _ w0 Hpool Hw)
        as (n & a' & pre & post & [= <-] & -> & _ & _ & Ht & _).
      split_and!; try done. rewrite Ht. apply elem_of_app. right.
      apply list_elem_of_here.
    - pose proof (pool_none _ _ _ Hpool Hw) as Hq. rewrite Forall_forall in Hq.
      by destruct (Hq _ Hcall) as [_ ?]. }
  split_and!.
  - intros w Hel. by destruct (Hnew w Hel) as [-> _].
  - done.
  - intros Hc Hlen Hmiss.
    assert (k = 3) as Hk.
    { unfold k. rewrite Hmiss, Hc. unfold getAvailableNumberOfCores. simpl. lia. }
    destruct Hpos as (Hw & _ & Hh); [lia|].
    rewrite Hw, Hh, Hk, Hlen. done.
Qed.

(** C4, as the code has it: the constructor turns an absent [parallel]
    into [true]; for [true] and for an absent value the number of cores
    handed to [optimize] is the number of cpus less one; for a number it
    is the smaller of that number and the number of cpus less one; for
    [false] and for a number that is not positive it is not positive.
    A pass given a number of cores that is not positive has no
    [getWorker], never creates a pool and makes every call in process. *)
Theorem parallel_option_sizes_the_pool os_cpus options c names schedule l :
  this = constructor options →
  NoDup names →
  assetsForMinify c names = Some l →
  match po_parallel options with
  | PUndefined =>
      parallel this = PBool true ∧
      apply_availableNumberOfCores os_cpus this = cpusLength os_cpus - 1
  | PBool true =>
      apply_availableNumberOfCores os_cpus this = cpusLength os_cpus - 1
  | PBool false =>
      apply_availableNumberOfCores os_cpus this ≤ 0
  | PNum n =>
      apply_availableNumberOfCores os_cpus this = Z.min n (cpusLength os_cpus - 1) ∧
      (n ≤ 0 → apply_availableNumberOfCores os_cpus this ≤ 0)
  end ∧
  (apply_availableNumberOfCores os_cpus this ≤ 0 →
   numberOfWorkers l (apply_availableNumberOfCores os_cpus this) = None ∧
   ∃ p, optimize c names (apply_availableNumberOfCores os_cpus this) schedule
          = Resolved p ∧
        initializedWorker p = None ∧
        filter isNewWorker (trace p) = [] ∧
        ∀ viaWorker o, EvMinify viaWorker o ∈ trace p → viaWorker = false).
Proof.
  intros Hthis Hnd Hl. split.
  - rewrite Hthis. unfold apply_availableNumberOfCores, constructor. simpl.
    destruct (po_parallel options) as [|[|]|n]; simpl; try done; lia.
  - intros Hle.
    pose proof (numberOfWorkers_None l _ Hle) as Hnone. split; [done|].
    destruct (settled c names (apply_availableNumberOfCores os_cpus this) schedule l
                Hnd Hl) as (p & Ho & Hd & Hv).
    destruct Hd as (_ & _ & Hpool & _).
    rewrite Hnone in Hpool.
    destruct (no_workers_no_pool l p Hpool) as (? & ? & ?).
    exists p. done.
Qed.

(** ** More about a whole pass *)



(** X2: when every asset is already flagged [minimized] or rejected by
    [matchObject], the pass returns at once: the compilation is as it
    was, nothing is traced and no pool exists. *)
Theorem nothing_selected_nothing_done c names cores schedule :
  (∀ n, n ∈ names →
        ∃ a, getAsset c n = Some a ∧
             (minimized (asset_info a) = true ∨ matchObject this n = false)) →
  optimize c names cores schedule =
    Resolved {| compilation := c; initializedWorker := None; trace := [] |}.
Proof.
  intros Hskip.
  assert (Forall (fun n => is_Some (getAsset c n)) names) as Hk.
  { apply Forall_forall. intros n Hin. destruct (Hskip n Hin) as (a & -> & _). eauto. }
  destruct (assetsForMinify_spec c names Hk) as (l & Hl & Hkept & _).
  assert (kept c names = []) as Hnil.
  { destruct (kept c names) as [|n rest] eqn:E; [done|]. exfalso.
    assert (n ∈ kept c names) as [Hkeep Hin]%list_elem_of_filter
      by (rewrite E; apply list_elem_of_here).
    destruct (Hskip n Hin) as (a & Ha & Hs).
    unfold keepAsset in Hkeep. rewrite Ha in Hkeep.
    destruct Hs as [H|H]; rewrite H in Hkeep; [done|].
    by destruct (minimized (asset_info a)). }
  rewrite Hnil in Hkept. apply fmap_nil_inv in Hkept as ->.
  unfold optimize. by rewrite Hl.
Qed.

Lemma numberOfAssets_le l : 0 ≤ numberOfAssets l ≤ Z.of_nat (length l).
Proof.
  unfold numberOfAssets. pose proof (length_filter isMiss l). lia.
Qed.

(** X3: the limit handed to [throttleAll] is at least one and at most the
    number of tasks, whatever the number of cores. *)
Theorem throttle_limit_within_tasks c names cores schedule l :
  NoDup names →
  assetsForMinify c names = Some l →
  l ≠ [] →
  ∃ p limit,
    optimize c names cores schedule = Resolved p ∧
    head (trace p) = Some (EvThrottle limit (length l)) ∧
    1 ≤ limit ≤ Z.of_nat (length l).
Proof.
  intros Hnd Hl Hne.
  destruct (settled c names cores schedule l Hnd Hl) as (p & Ho & Hd & _).
  destruct Hd as (_ & _ & _ & _ & Hhead & _).
  exists p, (throttleLimit (numberOfWorkers l cores) l).
  split_and!; [done|by apply Hhead|by apply throttleLimit_pos|].
  unfold throttleLimit, numberOfWorkers. rewrite scheduledTasks_length.
  pose proof (numberOfAssets_le l).
  repeat case_bool_decide; lia.
Qed.

Lemma asset_of_name (l : list AssetForMinify) (n : string) :
  n ∈ (name <$> l) → ∃ asset, asset ∈ l ∧ name asset = n.
Proof. intros (asset & -> & Hin)%list_elem_of_fmap. eauto. Qed.

(** X5: the minimization calls of a pass are one per cache miss among
    the selected assets and no other: each is made with the name of its
    asset, the text of its source (a [Buffer] decoded by [toString]) and
    the minimizer of the plugin, and all of them go through the pool when
    the number of cores is positive and all of them run in process when
    it is not. *)
Theorem one_call_per_cache_miss c names cores schedule l :
  NoDup names →
  assetsForMinify c names = Some l →
  ∃ p, optimize c names cores schedule = Resolved p ∧
       (∀ viaWorker o,
          EvMinify viaWorker o ∈ trace p →
          viaWorker = bool_decide (cores > 0) ∧
          ∃ asset, asset ∈ l ∧ output asset = None ∧
                   o = {| o_name := name asset;
                          o_input := match source (inputSource asset) with
                                     | SVString s => s
                                     | SVBuffer bytes => Buffer_toString bytes
                                     end;
                          o_minimizer := minimizer this |}) ∧
       (∀ asset, asset ∈ l →
          filter isMinify (eventsOf (name asset) (trace p)) =
            match output asset with
            | Some _ => []
            | None => [EvMinify (bool_decide (cores > 0)) (optionsOf asset)]
            end).
Proof.
  intros Hnd Hl.
  destruct (settled c names cores schedule l Hnd Hl) as (p & Ho & Hd & Hv).
  exists p. split; [done|].
  assert ((match numberOfWorkers l cores with Some _ => true | None => false end)
          = bool_decide (cores > 0)) as Hw.
  { unfold numberOfWorkers. by case_bool_decide. }
  assert (∀ asset, asset ∈ l →
            eventsOf (name asset) (trace p) =
            match output asset with
            | Some _ => [EvUpdateAsset (name asset)]
            | None =>
                match call (numberOfWorkers l cores) asset with
                | Fulfilled r =>
                    [EvMinify (bool_decide (cores > 0)) (optionsOf asset);
                     EvStore (cacheItem asset) (entryOf r);
                     EvUpdateAsset (name asset)]
                | RejectedWith _ =>
                    [EvMinify (bool_decide (cores > 0)) (optionsOf asset)]
                end
            end) as Hev.
  { intros asset Hin. destruct (Hv asset Hin) as [_ Hview].
    pose proof (f_equal v_events Hview) as He. simpl in He.
    unfold ownEvents in He. by rewrite Hw in He. }
  split.
  - intros viaWorker o Hel.
    destruct (decide (o_name o ∈ (name <$> l))) as [Hn|Hn].
    + destruct (asset_of_name l _ Hn) as (asset & Hin & Hname).
      pose proof (events_about (name asset) (trace p) _ Hel) as H.
      simpl in H. specialize (H (f_equal Some (eq_sym Hname))).
      rewrite (Hev asset Hin) in H.
      destruct (output asset) as [out|] eqn:Hout.
      { by apply list_elem_of_singleton in H. }
      assert (EvMinify viaWorker o =
              EvMinify (bool_decide (cores > 0)) (optionsOf asset)) as [= -> ->].
      { destruct (call _ asset).
        - apply elem_of_cons in H as [H|H]; [done|].
          apply elem_of_cons in H as [H|H]; [done|].
          by apply list_elem_of_singleton in H.
        - by apply list_elem_of_singleton in H. }
      split; [done|]. exists asset. done.
    + destruct Hd as (_ & Hframe & _).
      pose proof (events_about (o_name o) (trace p) _ Hel eq_refl) as H.
      pose proof (f_equal v_events (Hframe _ Hn)) as He. simpl in He.
      rewrite He in H. by apply elem_of_nil in H.
  - intros asset Hin. rewrite (Hev asset Hin).
    destruct (output asset); [done|]. by destruct (call _ asset).
Qed.

(** X6: a pass neither adds nor removes an asset; it keeps the other
    info properties of every asset, leaves an asset that was flagged
    [minimized] exactly as it was, and never clears the flag. *)
Theorem asset_graph_kept c names cores schedule l n :
  NoDup names →
  assetsForMinify c names = Some l →
  ∃ p, optimize c names cores schedule = Resolved p ∧
       (assets (compilation p) !! n = None ↔ assets c !! n = None) ∧
       (∀ a, assets c !! n = Some a →
          ∃ a', assets (compilation p) !! n = Some a' ∧
                otherInfo (asset_info a') = otherInfo (asset_info a) ∧
                (minimized (asset_info a) = true → a' = a)).
Proof.
  intros Hnd Hl.
  destruct (settled c names cores schedule l Hnd Hl) as (p & Ho & Hd & Hv).
  destruct (pass_of c names cores schedule l Hnd Hl) as (p' & _ & _ & _ & Hk).
  exists p. split; [done|].
  destruct (decide (n ∈ (name <$> l))) as [Hn|Hn].
  - destruct (asset_of_name l _ Hn) as (asset & Hin & <-).
    destruct (Hv asset Hin) as [Hs Hview].
    pose proof (f_equal v_asset Hview) as Ha. simpl in Ha.
    pose proof (selected_present c asset Hs) as Hc.
    destruct (selected_kept c names l asset Hk Hs Hin) as (_ & Hmin & _).
    rewrite Hc.
    destruct (finalOutput _ asset) as [out|]; rewrite Ha.
    + split; [done|]. intros a [= <-]. eexists. split; [done|]. simpl.
      split; [done|]. by rewrite Hmin.
    + split; [done|]. intros a [= <-]. eexists. done.
  - destruct Hd as (_ & Hframe & _).
    pose proof (f_equal v_asset (Hframe n Hn)) as Ha. simpl in Ha. rewrite Ha.
    split; [done|]. intros a Hc. exists a. done.
Qed.

(** X7: a pass keeps every entry the cache held, and what it adds are
    the outputs of the calls that resolved, each under the cache item of
    its asset; a call that rejected adds nothing. *)
Theorem cache_only_gains_resolved_outputs c names cores schedule l :
  NoDup names →
  assetsForMinify c names = Some l →
  ∃ p, optimize c names cores schedule = Resolved p ∧
       (∀ k entry, cache c !! k = Some entry →
                   cache (compilation p) !! k = Some entry) ∧
       (∀ k entry, cache (compilation p) !! k = Some entry →
          cache c !! k = Some entry ∨
          ∃ asset r, asset ∈ l ∧ output asset = None ∧
                     call (numberOfWorkers l cores) asset = Fulfilled r ∧
                     k = cacheItem asset ∧ entry = entryOf r) ∧
       (∀ asset r, asset ∈ l → output asset = None →
          call (numberOfWorkers l cores) asset = Fulfilled r →
          cache (compilation p) !! cacheItem asset = Some (entryOf r)).
Proof.
  intros Hnd Hl.
  destruct (settled c names cores schedule l Hnd Hl) as (p & Ho & Hd & Hv).
  exists p. split; [done|].
  assert (∀ k, cache (compilation p) !! k =
               match decide (k.1 ∈ (name <$> l)) with
               | left _ => cache (compilation p) !! k
               | right _ => cache c !! k
               end) as Hout.
  { intros k. case_decide as Hn; [done|].
    destruct Hd as (_ & Hframe & _).
    pose proof (f_equal v_cache (Hframe _ Hn)) as Hc. simpl in Hc.
    by rewrite <- (itemsOf_lookup k.1 k), Hc, itemsOf_lookup. }
  assert (∀ asset k, asset ∈ l → k.1 = name asset →
            cache (compilation p) !! k =
            match output asset, call (numberOfWorkers l cores) asset with
            | None, Fulfilled r => <[cacheItem asset := entryOf r]> (cache c) !! k
            | _, _ => cache c !! k
            end) as Hin.
  { intros asset k Ha Hk. destruct (Hv asset Ha) as [Hs Hview].
    pose proof (f_equal v_cache Hview) as Hc. simpl in Hc.
    rewrite <- (itemsOf_lookup (name asset) k _ Hk), Hc.
    destruct (output asset); [by apply itemsOf_lookup|].
    destruct (call _ asset) as [r|e]; [|by apply itemsOf_lookup].
    destruct (decide (cacheItem asset = k)) as [<-|Hne].
    - by rewrite !lookup_insert_eq.
    - rewrite !lookup_insert_ne by done. by apply itemsOf_lookup. }
  split_and!.
  - intros k entry Hc. rewrite Hout. case_decide as Hn; [|done].
    destruct (asset_of_name l _ Hn) as (asset & Ha & Hname).
    rewrite (Hin asset k Ha (eq_sym Hname)).
    destruct (Hv asset Ha) as [Hs _].
    destruct (output asset) eqn:Hcache; [done|].
    destruct (call _ asset) as [r|e]; [|done].
    rewrite lookup_insert_ne; [done|]. intros <-.
    rewrite (selected_output c asset Hs) in Hcache. congruence.
  - intros k entry Hp. rewrite Hout in Hp. case_decide as Hn; [|by left].
    destruct (asset_of_name l _ Hn) as (asset & Ha & Hname).
    rewrite (Hin asset k Ha (eq_sym Hname)) in Hp.
    destruct (output asset) eqn:Hcache; [by left|].
    destruct (call _ asset) as [r|e] eqn:Hcall; [|by left].
    destruct (decide (cacheItem asset = k)) as [<-|Hne].
    + rewrite lookup_insert_eq in Hp. injection Hp as <-.
      right. exists asset, r. done.
    + rewrite lookup_insert_ne in Hp by done. by left.
  - intros asset r Ha Hcache Hcall. destruct (Hv asset Ha) as [Hs _].
    rewrite (Hin asset (cacheItem asset) Ha (selected_key c asset Hs)).
    by rewrite Hcache, Hcall, lookup_insert_eq.
Qed.

(** X8: the warnings of an asset, cached or returned by its call, are
    pushed tagged with its name, in their order, and do not keep the
    asset from being updated; a call that rejected surfaces no warning;
    assets outside the pass get none. *)
Theorem warnings_recorded_per_asset c names cores schedule l :
  NoDup names →
  assetsForMinify c names = Some l →
  ∃ p, optimize c names cores schedule = Resolved p ∧
       (∀ asset out,
          asset ∈ l →
          finalOutput (numberOfWorkers l cores) asset = Some out →
          taggedWith (name asset) (warnings (compilation p)) =
            taggedWith (name asset) (warnings c) ++
            map (fun w => buildWarning w (name asset)) (c_warnings out) ∧
          assets (compilation p) !! name asset =
            Some {| asset_source := c_source out;
                    asset_info := newInfo (info asset) |}) ∧
       (∀ asset,
          asset ∈ l →
          finalOutput (numberOfWorkers l cores) asset = None →
          taggedWith (name asset) (warnings (compilation p)) =
            taggedWith (name asset) (warnings c)) ∧
       (∀ n, n ∉ (name <$> l) →
          taggedWith n (warnings (compilation p)) = taggedWith n (warnings c)).
Proof.
  intros Hnd Hl.
  destruct (settled c names cores schedule l Hnd Hl) as (p & Ho & Hd & Hv).
  exists p. split; [done|]. split_and!.
  - intros asset out Hin Hfin. destruct (Hv asset Hin) as [_ Hview].
    pose proof (f_equal v_warnings Hview) as Hw.
    pose proof (f_equal v_asset Hview) as Ha. simpl in Hw, Ha.
    rewrite Hfin in Ha. split; [|done]. rewrite Hw. do 2 f_equal.
    unfold finalOutput, ownWarnings in *.
    destruct (output asset); [congruence|].
    destruct (call _ asset); [|done]. by injection Hfin as <-.
  - intros asset Hin Hfin. destruct (Hv asset Hin) as [_ Hview].
    pose proof (f_equal v_warnings Hview) as Hw. simpl in Hw. rewrite Hw.
    unfold finalOutput, ownWarnings in *.
    destruct (output asset); [done|].
    destruct (call _ asset); [done|]. by rewrite app_nil_r.
  - intros n Hn. destruct Hd as (_ & Hframe & _).
    apply (f_equal v_warnings (Hframe n Hn)).
Qed.

Lemma task_no_end workers asset ph p :
  Forall (fun e => isWorkerEnd e = false) (trace p) →
  Forall (fun e => isWorkerEnd e = false) (trace (task workers asset ph p).2).
Proof.
  intros H. unfold task, replay, getWorker.
  destruct ph as [|[[r|error]|r]|b]; try done; simpl.
  - destruct (output asset).
    + destruct (updateAsset _ _ _); simpl; [|done].
      apply Forall_app. split; [done|]. by apply Forall_singleton.
    + destruct workers; simpl.
      * destruct (initializedWorker p); simpl;
          repeat (apply Forall_app; split; [|by apply Forall_singleton]); done.
      * apply Forall_app. split; [done|]. by apply Forall_singleton.
  - apply Forall_app. split; [done|]. by apply Forall_singleton.
  - destruct (updateAsset _ _ _); simpl; [|done].
    apply Forall_app. split; [done|]. by apply Forall_singleton.
Qed.

(** X4: a pool that was created is ended, once, after every task has
    settled, so that the end is the last event of the pass; a pass
    without a pool ends nothing. *)
Theorem pool_ended_last c names cores schedule l :
  assetsForMinify c names = Some l →
  ∃ p t,
    optimize c names cores schedule = Resolved p ∧
    Forall (fun e => isWorkerEnd e = false) t ∧
    trace p = t ++ match initializedWorker p with
                   | Some _ => [EvWorkerEnd]
                   | None => []
                   end.
Proof.
  intros Hl. unfold optimize. rewrite Hl.
  destruct l as [|a0 l0] eqn:El.
  - exists (start c), []. done.
  - rewrite <- El.
    assert (l ≠ []) as Hne by (by rewrite El).
    set (workers := numberOfWorkers l cores).
    set (limit := throttleLimit workers l).
    set (tasks := scheduledTasks workers l).
    set (p0 := {| compilation := c; initializedWorker := None;
                  trace := [EvThrottle limit (length tasks)] |}).
    destruct (throttleAll_Inv limit tasks
                (fun _ q => Forall (fun e => isWorkerEnd e = false) (trace q)))
      with (schedule := schedule) (p := p0) as (phases & p & _ & -> & _ & _ & HI).
    + intros i body phs q ph (asset & _ & ->)%scheduledTasks_lookup _ _.
      apply task_no_end.
    + intros i body ph q (asset & _ & ->)%scheduledTasks_lookup.
      apply task_progress.
    + by apply throttleLimit_pos.
    + by apply Forall_singleton.
    + exists (teardown p), (trace p). split_and!; try done.
      unfold teardown. destruct (initializedWorker p) eqn:Hw; simpl.
      * by rewrite Hw.
      * by rewrite Hw, app_nil_r.
Qed.

Lemma keepAsset_ext c1 c2 n :
  getAsset c1 n = getAsset c2 n →
  keepAsset matchObject this c1 n = keepAsset matchObject this c2 n.
Proof. unfold keepAsset. by intros ->. Qed.

Lemma kept_ext c1 c2 names :
  (∀ n, n ∈ names → getAsset c1 n = getAsset c2 n) →
  kept c1 names = kept c2 names.
Proof.
  intros H. unfold kept.
  induction names as [|n names IH]; [done|].
  rewrite !filter_cons.
  rewrite (keepAsset_ext c1 c2 n) by (apply H; apply list_elem_of_here).
  rewrite IH; [done|]. intros m Hm. apply H. by apply list_elem_of_further.
Qed.

(** X9: what a pass stored is found by the next one.  When the call of
    an asset resolved in a pass, a later pass over the same assets with
    the cache the first one left takes the asset for a cache hit: it
    makes no minimization call for it, pushes the errors and warnings of
    the stored result again, and leaves the asset as the first pass
    did. *)
Theorem stored_output_is_next_pass_hit
    c names cores schedule l asset r p1 c2 cores2 schedule2 :
  NoDup names →
  assetsForMinify c names = Some l →
  asset ∈ l →
  output asset = None →
  call (numberOfWorkers l cores) asset = Fulfilled r →
  optimize c names cores schedule = Resolved p1 →
  assets c2 = assets c →
  cache c2 = cache (compilation p1) →
  ∃ p2, optimize c2 names cores2 schedule2 = Resolved p2 ∧
        (∀ viaWorker o,
           EvMinify viaWorker o ∈ trace p2 → o_name o ≠ name asset) ∧
        eventsOf (name asset) (trace p2) = [EvUpdateAsset (name asset)] ∧
        assets (compilation p2) !! name asset =
          assets (compilation p1) !! name asset ∧
        taggedWith (name asset) (errors (compilation p2)) =
          taggedWith (name asset) (errors c2) ++
          map (fun e => buildError e (name asset)) (r_errors r) ∧
        taggedWith (name asset) (warnings (compilation p2)) =
          taggedWith (name asset) (warnings c2) ++
          map (fun w => buildWarning w (name asset)) (r_warnings r).
Proof.
  intros Hnd Hl Hin Hout Hcall Ho1 Hassets Hcache.
  destruct (settled c names cores schedule l Hnd Hl) as (p & Ho & _ & Hv).
  assert (p = p1) as -> by congruence.
  destruct (pass_of c names cores schedule l Hnd Hl) as (p' & _ & _ & _ & Hk).
  destruct (Hv asset Hin) as [Hs Hview].
  destruct (lookupCache_Some c _ asset Hs) as (_ & Hkey & Hpresent & _ & Hitem).
  (* the first pass *)
  assert (cache (compilation p1) !! cacheItem asset = Some (entryOf r)) as Hstored.
  { pose proof (f_equal v_cache Hview) as Hc. simpl in Hc.
    rewrite Hout, Hcall in Hc.
    rewrite <- (itemsOf_lookup (name asset) _ _ Hkey), Hc.
    apply lookup_insert_eq. }
  assert (assets (compilation p1) !! name asset =
          Some {| asset_source := c_source (entryOf r);
                  asset_info := newInfo (info asset) |}) as Hfirst.
  { pose proof (f_equal v_asset Hview) as Ha. simpl in Ha.
    unfold finalOutput in Ha. by rewrite Hout, Hcall in Ha. }
  (* the second pass *)
  assert (∀ n, getAsset c2 n = getAsset c n) as Hget
    by (intros n; unfold getAsset; by rewrite Hassets).
  assert (Forall (fun n => is_Some (getAsset c2 n)) names) as Hknown.
  { pose proof (assetsForMinify_known c names l Hl) as H.
    eapply Forall_impl; [exact H|]. intros n Hn. by rewrite Hget. }
  destruct (assetsForMinify_spec c2 names Hknown) as (l2 & Hl2 & Hk2 & Hs2).
  destruct (settled c2 names cores2 schedule2 l2 Hnd Hl2) as (p2 & Ho2 & _ & Hv2).
  exists p2. split; [done|].
  assert (name asset ∈ (name <$> l2)) as Hname.
  { rewrite Hk2, (kept_ext c2 c names) by (intros; apply Hget).
    rewrite <- Hk. apply list_elem_of_fmap. eauto. }
  destruct (asset_of_name l2 _ Hname) as (asset2 & Hin2 & Hname2).
  destruct (Hv2 asset2 Hin2) as [Hsel2 Hview2].
  destruct (lookupCache_Some c2 _ asset2 Hsel2)
    as (_ & _ & Hpresent2 & Hout2 & Hitem2).
  rewrite Hassets, Hname2, Hpresent in Hpresent2.
  injection Hpresent2 as Hsrc Hinfo.
  assert (output asset2 = Some (entryOf r)) as Hhit.
  { rewrite Hout2, Hitem2, Hname2, <- Hsrc, <- Hitem, Hcache. done. }
  unfold settledView, finalOutput, ownErrors, ownWarnings, ownEvents in Hview2.
  rewrite Hhit, Hname2 in Hview2. simpl in Hview2.
  assert (eventsOf (name asset) (trace p2) = [EvUpdateAsset (name asset)]) as He
    by apply (f_equal v_events Hview2).
  split_and!.
  - intros viaWorker o Hel Hn.
    pose proof (events_about (name asset) (trace p2) _ Hel (f_equal Some Hn)) as H.
    rewrite He in H. by apply list_elem_of_singleton in H.
  - done.
  - rewrite Hfirst, Hinfo. apply (f_equal v_asset Hview2).
  - apply (f_equal v_errors Hview2).
  - apply (f_equal v_warnings Hview2).
Qed.

(** X10: a pass run again over the compilation it left selects exactly
    the assets whose call rejected, in their order; when no call rejected
    it selects nothing and returns at once. *)
Theorem second_pass_takes_only_failures c names cores schedule l p :
  NoDup names →
  assetsForMinify c names = Some l →
  optimize c names cores schedule = Resolved p →
  ∃ l2,
    assetsForMinify (compilation p) names = Some l2 ∧
    name <$> l2 =
      name <$> filter (fun asset =>
                         finalOutput (numberOfWorkers l cores) asset = None) l ∧
    ((∀ asset, asset ∈ l →
        is_Some (finalOutput (numberOfWorkers l cores) asset)) →
     ∀ cores2 schedule2,
       optimize (compilation p) names cores2 schedule2 =
         Resolved {| compilation := compilation p; initializedWorker := None;
                     trace := [] |}).
Proof.
  intros Hnd Hl Ho1.
  destruct (settled c names cores schedule l Hnd Hl) as (q & Ho & Hd & Hv).
  assert (q = p) as -> by congruence.
  destruct (pass_of c names cores schedule l Hnd Hl) as (p' & _ & _ & Hsel & Hk).
  destruct Hd as (_ & Hframe & _).
  set (workers := numberOfWorkers l cores) in *.
  (* what the compilation holds for each name after the pass *)
  assert (∀ asset, asset ∈ l →
            keepAsset matchObject this (compilation p) (name asset) =
            Some (bool_decide (finalOutput workers asset = None))) as Hin.
  { intros asset Ha. destruct (Hv asset Ha) as [Hs Hview].
    pose proof (f_equal v_asset Hview) as Hasset. simpl in Hasset.
    destruct (selected_kept c names l asset Hk Hs Ha) as (_ & Hmin & Hmatch).
    unfold keepAsset, getAsset. rewrite Hasset.
    destruct (finalOutput workers asset); simpl; [done|].
    by rewrite Hmin, Hmatch. }
  assert (∀ n, n ∉ (name <$> l) →
            keepAsset matchObject this (compilation p) n =
            keepAsset matchObject this c n) as Hout.
  { intros n Hn. apply keepAsset_ext. unfold getAsset.
    apply (f_equal v_asset (Hframe n Hn)). }
  assert (Forall (fun n => is_Some (getAsset (compilation p) n)) names) as Hknown.
  { pose proof (assetsForMinify_known c names l Hl) as H.
    apply Forall_forall. intros n Hn. rewrite Forall_forall in H.
    destruct (decide (n ∈ (name <$> l))) as [Hm|Hm].
    - destruct (asset_of_name l n Hm) as (asset & Ha & <-).
      pose proof (Hin asset Ha) as Hkeep. unfold keepAsset in Hkeep.
      by destruct (getAsset (compilation p) (name asset)).
    - pose proof (f_equal v_asset (Hframe n Hm)) as E. simpl in E.
      unfold getAsset. rewrite E. by apply H. }
  destruct (assetsForMinify_spec (compilation p) names Hknown) as (l2 & Hl2 & Hk2 & _).
  assert (kept (compilation p) names =
          name <$> filter (fun asset => finalOutput workers asset = None) l) as Hkept.
  { assert (kept (compilation p) names =
            filter (fun n => keepAsset matchObject this (compilation p) n = Some true)
                   (kept c names)) as ->.
    { unfold kept. rewrite list_filter_filter. apply list_filter_iff.
      intros n. split; [|tauto]. intros Hkeep. split; [done|].
      destruct (decide (n ∈ (name <$> l))) as [Hm|Hm].
      - destruct (asset_of_name l n Hm) as (asset & Ha & <-).
        assert (name asset ∈ kept c names) as [? _]%list_elem_of_filter; [|done].
        rewrite <- Hk. by apply list_elem_of_fmap_2.
      - by rewrite <- (Hout n Hm). }
    rewrite <- Hk.
    assert (∀ l0 : list AssetForMinify,
              (∀ asset, asset ∈ l0 → asset ∈ l) →
              filter (fun n => keepAsset matchObject this (compilation p) n = Some true)
                     (name <$> l0) =
              name <$> filter (fun asset => finalOutput workers asset = None) l0) as H.
    { induction l0 as [|a l0 IH]; intros Hsub; [done|].
      rewrite fmap_cons, !filter_cons.
      rewrite IH by (intros; apply Hsub; by apply list_elem_of_further).
      rewrite (Hin a) by (apply Hsub; apply list_elem_of_here).
      destruct (decide (finalOutput workers a = None)) as [Hf|Hf].
      - rewrite bool_decide_eq_true_2 by done. by rewrite decide_True.
      - rewrite bool_decide_eq_false_2 by done. by rewrite decide_False. }
    by apply H. }
  exists l2. split_and!; [done|by rewrite Hk2|].
  intros Hall cores2 schedule2.
  assert (l2 = []) as ->.
  { apply (fmap_nil_inv name). rewrite Hk2, Hkept.
    destruct (filter _ l) as [|a rest] eqn:E; [done|]. exfalso.
    assert (a ∈ filter (fun asset => finalOutput workers asset = None) l)
      as [Hf Ha]%list_elem_of_filter by (rewrite E; apply list_elem_of_here).
    destruct (Hall a Ha) as [out Hsome]. congruence. }
  unfold optimize. by rewrite Hl2.
Qed.

(** X11: the order in which the awaits of the tasks complete changes
    nothing about any one asset: two passes over the same compilation
    under different schedules leave the same asset graph and the same
    cache, and for every name the same errors, warnings and events, in
    the same order. *)
Theorem schedule_does_not_matter_per_asset c names cores schedule1 schedule2 :
  NoDup names →
  (∀ n, n ∈ names → is_Some (getAsset c n)) →
  ∃ p1 p2,
    optimize c names cores schedule1 = Resolved p1 ∧
    optimize c names cores schedule2 = Resolved p2 ∧
    assets (compilation p1) = assets (compilation p2) ∧
    cache (compilation p1) = cache (compilation p2) ∧
    initializedWorker p1 = initializedWorker p2 ∧
    ∀ n, taggedWith n (errors (compilation p1)) =
           taggedWith n (errors (compilation p2)) ∧
         taggedWith n (warnings (compilation p1)) =
           taggedWith n (warnings (compilation p2)) ∧
         eventsOf n (trace p1) = eventsOf n (trace p2).
Proof.
  intros Hnd Hknown. apply Forall_forall in Hknown.
  destruct (assetsForMinify_spec c names Hknown) as (l & Hl & _ & _).
  destruct (settled c names cores schedule1 l Hnd Hl) as (p1 & Ho1 & Hd1 & Hv1).
  destruct (settled c names cores schedule2 l Hnd Hl) as (p2 & Ho2 & Hd2 & Hv2).
  exists p1, p2. split; [done|]. split; [done|].
  assert (∀ n, view n p1 = view n p2) as Hview.
  { intros n. destruct (decide (n ∈ (name <$> l))) as [Hn|Hn].
    - destruct (asset_of_name l n Hn) as (asset & Ha & <-).
      destruct (Hv1 asset Ha) as [_ ->]. by destruct (Hv2 asset Ha) as [_ ->].
    - destruct Hd1 as (_ & Hf1 & _). destruct Hd2 as (_ & Hf2 & _).
      by rewrite Hf1, Hf2. }
  split_and!.
  - apply map_eq. intros n. apply (f_equal v_asset (Hview n)).
  - apply map_eq. intros k.
    rewrite <- (itemsOf_lookup k.1 k (cache (compilation p1))) by done.
    rewrite <- (itemsOf_lookup k.1 k (cache (compilation p2))) by done.
    pose proof (f_equal v_cache (Hview k.1)) as E. simpl in E. by rewrite E.
  - destruct Hd1 as (_ & _ & Hp1 & _). destruct Hd2 as (_ & _ & Hp2 & _).
    destruct (initializedWorker p1) as [w1|] eqn:Hw1,
             (initializedWorker p2) as [w2|] eqn:Hw2; try done.
    + destruct (pool_some _ _ _ w1 Hp1 Hw1) as (n1 & _ & _ & _ & E1 & -> & _).
      destruct (pool_some _ _ _ w2 Hp2 Hw2) as (n2 & _ & _ & _ & E2 & -> & _).
      congruence.
    + exfalso.
      destruct (pool_some _ _ _ w1 Hp1 Hw1)
        as (n1 & asset & pre & post & E1 & _ & Ha & Hout & Ht & _).
      pose proof (pool_none _ _ _ Hp2 Hw2) as Hq. rewrite Forall_forall in Hq.
      assert (EvMinify true (optionsOf asset) ∈ eventsOf (name asset) (trace p1)) as H.
      { apply events_about; [|done]. rewrite Ht.
        apply elem_of_app. right. apply list_elem_of_further, list_elem_of_here. }
      pose proof (f_equal v_events (Hview (name asset))) as E. simpl in E.
      rewrite E in H.
      apply list_elem_of_filter in H as [_ H]. by destruct (Hq _ H).
    + exfalso.
      destruct (pool_some _ _ _ w2 Hp2 Hw2)
        as (n2 & asset & pre & post & E2 & _ & Ha & Hout & Ht & _).
      pose proof (pool_none _ _ _ Hp1 Hw1) as Hq. rewrite Forall_forall in Hq.
      assert (EvMinify true (optionsOf asset) ∈ eventsOf (name asset) (trace p2)) as H.
      { apply events_about; [|done]. rewrite Ht.
        apply elem_of_app. right. apply list_elem_of_further, list_elem_of_here. }
      pose proof (f_equal v_events (Hview (name asset))) as E. simpl in E.
      rewrite <- E in H.
      apply list_elem_of_filter in H as [_ H]. by destruct (Hq _ H).
  - intros n. split_and!.
    + apply (f_equal v_errors (Hview n)).
    + apply (f_equal v_warnings (Hview n)).
    + apply (f_equal v_events (Hview n)).
Qed.

(** X14: the assets a pass makes tasks for are the names that are not
    flagged [minimized] and that [matchObject] accepts, each once and in
    the order of the names; each carries the source and info that
    [getAsset] gave, the cache item of its name and the etag of its
    source, and as output what that cache item holds. *)
Theorem selection_in_order c names :
  NoDup names →
  (∀ n, n ∈ names → is_Some (getAsset c n)) →
  ∃ l, assetsForMinify c names = Some l ∧
       (name <$> l) `sublist_of` names ∧
       NoDup (name <$> l) ∧
       (∀ n, n ∈ (name <$> l) ↔
             n ∈ names ∧
             ∃ a, getAsset c n = Some a ∧ minimized (asset_info a) = false ∧
                  matchObject this n = true) ∧
       (∀ asset, asset ∈ l →
          getAsset c (name asset) =
            Some {| asset_source := inputSource asset; asset_info := info asset |} ∧
          cacheItem asset = (name asset, getLazyHashedEtag (inputSource asset)) ∧
          output asset = cache c !! cacheItem asset).
Proof.
  intros Hnd Hknown. apply Forall_forall in Hknown.
  destruct (assetsForMinify_spec c names Hknown) as (l & Hl & Hk & Hs).
  exists l. split; [done|]. rewrite Hk. split_and!.
  - apply sublist_filter.
  - by apply NoDup_filter.
  - intros n. unfold kept. rewrite list_elem_of_filter.
    split.
    + intros [Hkeep Hin]. split; [done|].
      unfold keepAsset in Hkeep. destruct (getAsset c n) as [a|]; [|done].
      exists a. split; [done|].
      destruct (minimized (asset_info a)); [done|].
      by destruct (matchObject this n).
    + intros [Hin (a & Ha & Hmin & Hmatch)]. split; [|done].
      unfold keepAsset. by rewrite Ha, Hmin, Hmatch.
  - intros asset Hin. rewrite Forall_forall in Hs.
    destruct (lookupCache_Some c _ asset (Hs asset Hin)) as (_ & _ & ? & ? & ?).
    done.
Qed.

End OptimizeFacts.

(** * The sizing and the constructor *)

(** X12: whatever the [parallel] option, the number of cores handed to
    [optimize] is at most the number of cpus less one, and at most the
    option when it is a number; it is not positive for [false] and for
    [undefined].  So on one cpu, or when [os.cpus()] gives [undefined],
    there is never a [getWorker]; and a pool never has more workers than
    cpus less one, nor more than there are cache misses. *)
Theorem cores_never_exceed_cpus os_cpus parallel (l : list AssetForMinify) :
  getAvailableNumberOfCores os_cpus parallel ≤ cpusLength os_cpus - 1 ∧
  (∀ n, parallel = PNum n → getAvailableNumberOfCores os_cpus parallel ≤ n) ∧
  (parallel = PUndefined ∨ parallel = PBool false →
   getAvailableNumberOfCores os_cpus parallel ≤ 0) ∧
  (cpusLength os_cpus ≤ 1 →
   numberOfWorkers l (getAvailableNumberOfCores os_cpus parallel) = None) ∧
  (os_cpus = None →
   numberOfWorkers l (getAvailableNumberOfCores os_cpus parallel) = None) ∧
  (∀ k, numberOfWorkers l (getAvailableNumberOfCores os_cpus parallel) = Some k →
        0 ≤ k ≤ cpusLength os_cpus - 1 ∧ k ≤ numberOfAssets l).
Proof.
  assert (getAvailableNumberOfCores os_cpus parallel ≤ cpusLength os_cpus - 1) as Hle.
  { unfold getAvailableNumberOfCores. destruct parallel as [|[|]|n]; simpl; lia. }
  assert (cpusLength os_cpus ≤ 1 →
          numberOfWorkers l (getAvailableNumberOfCores os_cpus parallel) = None) as Hone.
  { intros H. unfold numberOfWorkers. rewrite bool_decide_eq_false_2; [done|lia]. }
  split_and!; try done.
  - intros n ->. unfold getAvailableNumberOfCores. simpl. lia.
  - intros [-> | ->]; unfold getAvailableNumberOfCores; simpl; lia.
  - intros ->. by apply Hone.
  - intros k. unfold numberOfWorkers. case_bool_decide; [|done].
    intros [= <-]. pose proof (numberOfAssets_le l). lia.
Qed.

(** X13: an array of implementations is zipped with the options: there
    are as many minimizers as implementations, in their order; with an
    array of options the minimizer at an index gets the options at that
    index, [undefined] where the array of options is shorter or has
    none there, and otherwise every minimizer gets the same options.  A
    single implementation, given or defaulted to [htmlMinifierTerser],
    takes the options as they are. *)
Theorem constructor_pairs_minimizers options :
  match po_minify options with
  | Some (MinifyMany fs) =>
      ∃ ms, minimizer (constructor options) = Chain ms ∧
            length ms = length fs ∧
            ∀ i f, fs !! i = Some f →
                   ms !! i =
                     Some {| implementation := f;
                             options :=
                               match po_minimizerOptions options with
                               | OArray items =>
                                   match items !! i with
                                   | Some (Some o) => OObject o
                                   | _ => OUndefined
                                   end
                               | shared => shared
                               end |}
  | Some (MinifyOne f) =>
      minimizer (constructor options) =
        Single {| implementation := f; options := po_minimizerOptions options |}
  | None =>
      minimizer (constructor options) =
        Single {| implementation := htmlMinifierTerser;
                  options := po_minimizerOptions options |}
  end.
Proof.
  unfold constructor. destruct (po_minify options) as [[f|fs]|]; simpl; try done.
  exists (zipMinimizers (po_minimizerOptions options) fs).
  unfold zipMinimizers. split_and!; [done|apply length_imap|].
  intros i f Hf. rewrite list_lookup_imap, Hf. simpl.
  by destruct (po_minimizerOptions options).
Qed.

(** * The passes of the example *)

Lemma example_names : NoDup Example.names.
Proof. compute_done. Defined.

Lemma example_selection :
  assetsForMinify Example.matchObject Example.getLazyHashedEtag Example.this
    Example.c Example.names = Some Example.l.
Proof. vm_compute. reflexivity. Defined.

Lemma cache_hit_replays_stored_output_witness :
  ∃ p, Example.run 2 [0; 1; 3; 1; 0]%nat = Resolved p ∧
       eventsOf "c.html" (trace p) = [EvUpdateAsset "c.html"].
Proof.
  destruct (cache_hit_replays_stored_output
              Example.matchObject Example.getLazyHashedEtag Example.Buffer_toString
              Example.minify Example.transform Example.this
              Example.c Example.names 2 [0; 1; 3; 1; 0]%nat
              Example.l Example.c_html Example.stored)
    as (p & Hp & _ & He & _).
  - exact example_names.
  - exact example_selection.
  - unfold Example.l. set_solver.
  - reflexivity.
  - exists p. split; assumption.
Defined.




Lemma example_known :
  Forall (fun n => is_Some (getAsset Example.c n)) Example.names.
Proof. compute_done. Defined.

Lemma skipped_asset_untouched_witness :
  ∃ l p, assetsForMinify Example.matchObject Example.getLazyHashedEtag Example.this
           Example.c Example.names = Some l ∧
         Example.run 2 [3; 0; 1]%nat = Resolved p ∧
         assets (compilation p) !! "e.html" = Some (Example.asset "<e>" true).
Proof.
  destruct (skipped_asset_untouched
              Example.matchObject Example.getLazyHashedEtag Example.Buffer_toString
              Example.minify Example.transform Example.this
              Example.c Example.names 2 [3; 0; 1]%nat "e.html" (Example.asset "<e>" true))
    as (l & p & Hl & Hp & _ & _ & _ & Ha).
  - exact example_names.
  - exact example_known.
  - vm_compute. reflexivity.
  - left. reflexivity.
  - exists l, p. split_and!; assumption.
Defined.

Lemma pool_created_lazily_at_most_once_witness :
  ∃ p, Example.run 2 [0; 1; 2; 3; 0]%nat = Resolved p ∧
       (length (filter isNewWorker (trace p)) ≤ 1)%nat.
Proof.
  destruct (pool_created_lazily_at_most_once
              Example.matchObject Example.getLazyHashedEtag Example.Buffer_toString
              Example.minify Example.transform Example.this
              Example.c Example.names 2 [0; 1; 2; 3; 0]%nat Example.l)
    as (p & Hp & Hn & _).
  - exact example_names.
  - exact example_selection.
  - exists p. split; assumption.
Defined.

Lemma diagnostics_carry_asset_name_witness :
  ∃ p es ws, Example.run 2 [0; 1; 2; 3; 0]%nat = Resolved p ∧
             errors (compilation p) = errors Example.c ++ es ∧
             warnings (compilation p) = warnings Example.c ++ ws.
Proof.
  destruct (diagnostics_carry_asset_name
              Example.matchObject Example.getLazyHashedEtag Example.Buffer_toString
              Example.minify Example.transform Example.this
              Example.c Example.names 2 [0; 1; 2; 3; 0]%nat Example.l)
    as (p & es & ws & Hp & He & Hw & _).
  - exact example_names.
  - exact example_selection.
  - exists p, es, ws. split_and!; assumption.
Defined.

Lemma cache_store_only_on_success_witness :
  ∃ p, Example.run 2 [0; 1; 0; 0]%nat = Resolved p ∧
       (length (filter isStore (eventsOf "a.html" (trace p))) ≤ 1)%nat.
Proof.
  destruct (cache_store_only_on_success
              Example.matchObject Example.getLazyHashedEtag Example.Buffer_toString
              Example.minify Example.transform Example.this
              Example.c Example.names 2 [0; 1; 0; 0]%nat Example.l Example.a_html)
    as (p & Hp & _ & Hn & _).
  - exact example_names.
  - exact example_selection.
  - unfold Example.l. apply elem_of_cons. by left.
  - exists p. split; assumption.
Defined.


Lemma workers_are_min_of_misses_and_cores_witness :
  numberOfWorkers Example.l 2 = Some (Z.min (numberOfAssets Example.l) 2).
Proof.
  destruct (workers_are_min_of_misses_and_cores
              Example.matchObject Example.getLazyHashedEtag Example.Buffer_toString
              Example.minify Example.transform Example.this
              Example.c Example.names 2 [1; 0]%nat Example.l)
    as (_ & Hw & _).
  - exact example_names.
  - exact example_selection.
  - reflexivity.
  - exact Hw.
Defined.

(** C4, as stated, fails for an absent [parallel]: on four cpus the
    plugin built without the option hands three cores to [optimize],
    which creates a pool of three workers for the three cache misses. *)
Lemma absent_parallel_disables_pool_counterexample :
  po_parallel (Example.pluginOptions PUndefined) = PUndefined ∧
  apply_availableNumberOfCores (Some 4%nat)
    (constructor (Example.pluginOptions PUndefined)) = 3 ∧
  ∃ p, optimize Example.matchObject Example.getLazyHashedEtag Example.Buffer_toString
         Example.minify Example.transform
         (constructor (Example.pluginOptions PUndefined))
         Example.c Example.names 3 [] = Resolved p ∧
       initializedWorker p = Some {| numWorkers := 3; enableWorkerThreads := true |} ∧
       filter isNewWorker (trace p) =
         [EvNewWorker {| numWorkers := 3; enableWorkerThreads := true |}].
Proof.
  split_and!; [reflexivity | reflexivity |].
  eexists. split_and!.
  - vm_compute. reflexivity.
  - reflexivity.
  - vm_compute. reflexivity.
Qed.

Lemma parallel_option_sizes_the_pool_witness :
  apply_availableNumberOfCores (Some 4%nat) Example.this ≤ 0.
Proof.
  destruct (parallel_option_sizes_the_pool
              Example.matchObject Example.getLazyHashedEtag Example.Buffer_toString
              Example.minify Example.transform Example.this
              (Some 4%nat) (Example.pluginOptions (PBool false))
              Example.c Example.names [] Example.l)
    as (Hc & _).
  - reflexivity.
  - exact example_names.
  - exact example_selection.
  - exact Hc.
Defined.

Lemma example_first_pass : Example.run 0 [] = Resolved Example.firstPass.
Proof. vm_compute. reflexivity. Defined.


Lemma nothing_selected_nothing_done_witness :
  optimize Example.matchObject Example.getLazyHashedEtag Example.Buffer_toString
    Example.minify Example.transform Example.this
    Example.c Example.skippedNames 2 [0; 1]%nat =
  Resolved {| compilation := Example.c; initializedWorker := None; trace := [] |}.
Proof.
  apply nothing_selected_nothing_done.
  intros n Hn. unfold Example.skippedNames in Hn.
  apply elem_of_cons in Hn as [-> | Hn].
  - exists (Example.asset "text" false). split; [reflexivity | right; reflexivity].
  - apply list_elem_of_singleton in Hn as ->.
    exists (Example.asset "<e>" true). split; [reflexivity | left; reflexivity].
Defined.

Lemma throttle_limit_within_tasks_witness :
  ∃ p limit, Example.run 2 [1; 0; 3]%nat = Resolved p ∧
             1 ≤ limit ≤ Z.of_nat (length Example.l).
Proof.
  destruct (throttle_limit_within_tasks
              Example.matchObject Example.getLazyHashedEtag Example.Buffer_toString
              Example.minify Example.transform Example.this
              Example.c Example.names 2 [1; 0; 3]%nat Example.l)
    as (p & limit & Hp & _ & Hlim).
  - exact example_names.
  - exact example_selection.
  - discriminate.
  - exists p, limit. split; assumption.
Defined.

Lemma pool_ended_last_witness :
  ∃ p t, Example.run 2 [1; 0; 3]%nat = Resolved p ∧
         trace p = t ++ match initializedWorker p with
                        | Some _ => [EvWorkerEnd]
                        | None => []
                        end.
Proof.
  destruct (pool_ended_last
              Example.matchObject Example.getLazyHashedEtag Example.Buffer_toString
              Example.minify Example.transform Example.this
              Example.c Example.names 2 [1; 0; 3]%nat Example.l)
    as (p & t & Hp & _ & Ht).
  - exact example_selection.
  - exists p, t. split; assumption.
Defined.

Lemma one_call_per_cache_miss_witness :
  ∃ p, Example.run 2 [1; 0; 3]%nat = Resolved p ∧
       filter isMinify (eventsOf "c.html" (trace p)) = [].
Proof.
  destruct (one_call_per_cache_miss
              Example.matchObject Example.getLazyHashedEtag Example.Buffer_toString
              Example.minify Example.transform Example.this
              Example.c Example.names 2 [1; 0; 3]%nat Example.l)
    as (p & Hp & _ & Hc).
  - exact example_names.
  - exact example_selection.
  - exists p. split; [assumption|].
    apply (Hc Example.c_html).
    unfold Example.l. do 2 (apply elem_of_cons; right). apply elem_of_cons. by left.
Defined.

Lemma asset_graph_kept_witness :
  ∃ p, Example.run 2 [1; 0; 3]%nat = Resolved p ∧
       (assets (compilation p) !! "g.html" = None ↔ assets Example.c !! "g.html" = None).
Proof.
  destruct (asset_graph_kept
              Example.matchObject Example.getLazyHashedEtag Example.Buffer_toString
              Example.minify Example.transform Example.this
              Example.c Example.names 2 [1; 0; 3]%nat Example.l "g.html")
    as (p & Hp & Hn & _).
  - exact example_names.
  - exact example_selection.
  - exists p. split; assumption.
Defined.

Lemma cache_only_gains_resolved_outputs_witness :
  ∃ p, Example.run 2 [1; 0; 3]%nat = Resolved p ∧
       cache (compilation p) !! ("c.html", "<c> </c>") = Some Example.stored.
Proof.
  destruct (cache_only_gains_resolved_outputs
              Example.matchObject Example.getLazyHashedEtag Example.Buffer_toString
              Example.minify Example.transform Example.this
              Example.c Example.names 2 [1; 0; 3]%nat Example.l)
    as (p & Hp & Hkeep & _).
  - exact example_names.
  - exact example_selection.
  - exists p. split; [assumption|]. apply Hkeep. reflexivity.
Defined.

Lemma warnings_recorded_per_asset_witness :
  ∃ p, Example.run 2 [1; 0; 3]%nat = Resolved p ∧
       taggedWith "d.txt" (warnings (compilation p)) =
         taggedWith "d.txt" (warnings Example.c).
Proof.
  destruct (warnings_recorded_per_asset
              Example.matchObject Example.getLazyHashedEtag Example.Buffer_toString
              Example.minify Example.transform Example.this
              Example.c Example.names 2 [1; 0; 3]%nat Example.l)
    as (p & Hp & _ & _ & Hout).
  - exact example_names.
  - exact example_selection.
  - exists p. split; [assumption|]. apply Hout. compute_done.
Defined.

Lemma stored_output_is_next_pass_hit_witness :
  ∃ p2, optimize Example.matchObject Example.getLazyHashedEtag Example.Buffer_toString
          Example.minify Example.transform Example.this
          Example.rebuilt Example.names 2 [3; 1]%nat = Resolved p2 ∧
        eventsOf "a.html" (trace p2) = [EvUpdateAsset "a.html"].
Proof.
  destruct (stored_output_is_next_pass_hit
              Example.matchObject Example.getLazyHashedEtag Example.Buffer_toString
              Example.minify Example.transform Example.this
              Example.c Example.names 0 [] Example.l Example.a_html
              {| code := "<p>hi</p>"; r_warnings := [JString "w"]; r_errors := [] |}
              Example.firstPass Example.rebuilt 2 [3; 1]%nat)
    as (p2 & Hp & _ & He & _).
  - exact example_names.
  - exact example_selection.
  - unfold Example.l. apply elem_of_cons. by left.
  - reflexivity.
  - reflexivity.
  - exact example_first_pass.
  - reflexivity.
  - reflexivity.
  - exists p2. split; assumption.
Defined.

Lemma second_pass_takes_only_failures_witness :
  ∃ l2, assetsForMinify Example.matchObject Example.getLazyHashedEtag Example.this
          (compilation Example.firstPass) Example.names = Some l2 ∧
        name <$> l2 =
          name <$> filter (fun asset =>
                             finalOutput Example.Buffer_toString Example.minify
                               Example.transform Example.this
                               (numberOfWorkers Example.l 0) asset = None) Example.l.
Proof.
  destruct (second_pass_takes_only_failures
              Example.matchObject Example.getLazyHashedEtag Example.Buffer_toString
              Example.minify Example.transform Example.this
              Example.c Example.names 0 [] Example.l Example.firstPass)
    as (l2 & Hl2 & Hn & _).
  - exact example_names.
  - exact example_selection.
  - exact example_first_pass.
  - exists l2. split; assumption.
Defined.

Lemma schedule_does_not_matter_per_asset_witness :
  ∃ p1 p2, Example.run 0 [0; 1; 3; 3; 1]%nat = Resolved p1 ∧
           Example.run 0 [3; 0]%nat = Resolved p2 ∧
           assets (compilation p1) = assets (compilation p2).
Proof.
  destruct (schedule_does_not_matter_per_asset
              Example.matchObject Example.getLazyHashedEtag Example.Buffer_toString
              Example.minify Example.transform Example.this
              Example.c Example.names 0 [0; 1; 3; 3; 1]%nat [3; 0]%nat)
    as (p1 & p2 & H1 & H2 & Ha & _).
  - exact example_names.
  - apply Forall_forall. exact example_known.
  - exists p1, p2. split_and!; assumption.
Defined.

Lemma selection_in_order_witness :
  ∃ l, assetsForMinify Example.matchObject Example.getLazyHashedEtag Example.this
         Example.c Example.names = Some l ∧
       NoDup (name <$> l).
Proof.
  destruct (selection_in_order
              Example.matchObject Example.getLazyHashedEtag Example.this
              Example.c Example.names)
    as (l & Hl & _ & Hnd & _).
  - exact example_names.
  - apply Forall_forall. exact example_known.
  - exists l. split; assumption.
Defined.
